(** * Session lifecycle engine and day aggregation of code-harvest

    A shallow embedding of the session state machine of package [app]
    (FocusGained, OpenFile, SendHeartbeat, EndSession, CheckHeartbeat and
    their helpers) and of [Sessions.Aggregate] of package [domain]. *)

From Stdlib Require Import ZArith Lia Permutation.
From stdpp Require Import base gmap list strings.

Open Scope Z_scope.

(** ** Go [int64] arithmetic *)

Definition int64_modulus : Z := 2 ^ 64.
Definition int64_min : Z := - 2 ^ 63.
Definition int64_max : Z := 2 ^ 63 - 1.

(** Two's complement wrap-around of a Go [int64] result. *)
Definition wrap64 (x : Z) : Z :=
  (x + 2 ^ 63) mod int64_modulus - 2 ^ 63.

Definition in_int64 (x : Z) : Prop := int64_min <= x <= int64_max.

(** [HeartbeatTTL = time.Minute * 10]; [HeartbeatTTL.Milliseconds()]. *)
Definition HeartbeatTTL_ms : Z := 10 * 60 * 1000.

(** ** Data model ([models.File], [models.Session], [shared.Event]) *)

Record File := mkFile {
  Name : string;
  Repository : string;
  Filetype : string;
  Path : string;
  OpenedAt : Z;
  ClosedAt : Z;
  DurationMs : Z
}.

Definition set_ClosedAt (f : File) (t : Z) : File :=
  mkFile (Name f) (Repository f) (Filetype f) (Path f) (OpenedAt f) t (DurationMs f).

Definition set_DurationMs (f : File) (d : Z) : File :=
  mkFile (Name f) (Repository f) (Filetype f) (Path f) (OpenedAt f) (ClosedAt f) d.

(** [Files] is the Go [map[string]*models.File].  The code stores in it
    pointers that are also elements of [OpenFiles]; only the [DurationMs]
    field of those objects is written through the map, so the model keeps
    the map's values and does not track the sharing with [OpenFiles]. *)
Record Session := mkSession {
  StartedAt : Z;
  EndedAt : Z;
  SDurationMs : Z;
  OS : string;
  Editor : string;
  CurrentFile : option File;
  OpenFiles : list File;
  Files : gmap string File
}.

Definition set_CurrentFile (s : Session) (f : option File) : Session :=
  mkSession (StartedAt s) (EndedAt s) (SDurationMs s) (OS s) (Editor s)
    f (OpenFiles s) (Files s).

Definition set_OpenFiles (s : Session) (l : list File) : Session :=
  mkSession (StartedAt s) (EndedAt s) (SDurationMs s) (OS s) (Editor s)
    (CurrentFile s) l (Files s).

Definition set_Ended (s : Session) (endedAt d : Z) : Session :=
  mkSession (StartedAt s) endedAt d (OS s) (Editor s)
    (CurrentFile s) (OpenFiles s) (Files s).

Definition set_Files (s : Session) (m : gmap string File) : Session :=
  mkSession (StartedAt s) (EndedAt s) (SDurationMs s) (OS s) (Editor s)
    (CurrentFile s) (OpenFiles s) m.

Record Event := mkEvent {
  Id : string;
  EOS : string;
  EEditor : string;
  EPath : string
}.

(** Result of [MetadataReader.Read]. *)
Record FileMetadata := mkFileMetadata {
  Filename : string;
  RepositoryName : string;
  MFiletype : string
}.

(** ** The [app] struct and its collaborators

    [w_clock] is the injected [clock.Clock] and [w_wall] the process wall
    clock [time.Now().UTC().UnixMilli()]; both are read at a tick counter
    that advances at every reading, so that successive readings may
    differ.  [w_reader] is [MetadataReader.Read] ([None] is an error) and
    [w_store] the error returned by [storage.Save]; [w_saved] records every
    session handed to [storage.Save].  The mutex is modelled separately in
    module [Locking]. *)
Record World := mkWorld {
  activeClientId : string;
  lastHeartbeat : Z;
  session : option Session;
  w_clock : nat -> Z;
  w_wall : nat -> Z;
  w_ticks : nat;
  w_reader : string -> option FileMetadata;
  w_store : Session -> option string;
  w_saved : list Session
}.

Definition set_activeClientId (w : World) (a : string) : World :=
  mkWorld a (lastHeartbeat w) (session w) (w_clock w) (w_wall w) (w_ticks w)
    (w_reader w) (w_store w) (w_saved w).

Definition set_lastHeartbeat (w : World) (t : Z) : World :=
  mkWorld (activeClientId w) t (session w) (w_clock w) (w_wall w) (w_ticks w)
    (w_reader w) (w_store w) (w_saved w).

Definition set_session (w : World) (s : option Session) : World :=
  mkWorld (activeClientId w) (lastHeartbeat w) s (w_clock w) (w_wall w)
    (w_ticks w) (w_reader w) (w_store w) (w_saved w).

Definition tick (w : World) : World :=
  mkWorld (activeClientId w) (lastHeartbeat w) (session w) (w_clock w)
    (w_wall w) (S (w_ticks w)) (w_reader w) (w_store w) (w_saved w).

Definition record_save (w : World) (s : Session) : World :=
  mkWorld (activeClientId w) (lastHeartbeat w) (session w) (w_clock w)
    (w_wall w) (w_ticks w) (w_reader w) (w_store w) (w_saved w ++ [s]).

(** ** The engine monad: state passing with process termination

    [Fatal] is [log.PrintFatal], [Panic] a nil-pointer dereference. *)
Inductive outcome (A : Type) :=
| Normal (a : A)
| Fatal
| Panic.
Arguments Normal {A} a.
Arguments Fatal {A}.
Arguments Panic {A}.

Definition M (A : Type) : Type := World -> outcome A * World.

Definition ret {A} (a : A) : M A := fun w => (Normal a, w).

Definition bind {A B} (m : M A) (k : A -> M B) : M B :=
  fun w =>
    match m w with
    | (Normal a, w') => k a w'
    | (Fatal, w') => (Fatal, w')
    | (Panic, w') => (Panic, w')
    end.

Notation "'do' x <- m ; k" := (bind m (fun x => k))
  (at level 200, x name, m at level 100, k at level 200).


(** Primitive actions. *)
Definition get : M World := fun w => (Normal w, w).
Definition modify (f : World -> World) : M unit := fun w => (Normal tt, f w).
Definition halt_fatal {A} : M A := fun w => (Fatal, w).
Definition nil_deref {A} : M A := fun w => (Panic, w).

(** [app.clock.GetTime()] *)
Definition GetTime : M Z := fun w => (Normal (w_clock w (w_ticks w)), tick w).

(** [time.Now().UTC().UnixMilli()] *)
Definition time_Now : M Z := fun w => (Normal (w_wall w (w_ticks w)), tick w).

(** [app.reader.Read(path)] *)
Definition reader_Read (path : string) : M (option FileMetadata) :=
  fun w => (Normal (w_reader w path), w).

(** [app.storage.Save(s)] *)
Definition storage_Save (s : Session) : M (option string) :=
  fun w => (Normal (w_store w s), record_save w s).

(** [app.log.PrintFatal]: the logger terminates the process. *)
Definition PrintFatal : M unit := halt_fatal.

(** Writes through [app.session], which dereferences the pointer. *)
Definition modify_session (f : Session -> Session) : M unit :=
  do w <- get;
  match session w with
  | None => nil_deref
  | Some s => modify (fun w => set_session w (Some (f s)))
  end.

(** ** The helpers of [app] *)

(** The session part of [archiveCurrentFile]. *)
Definition archive (closedAt : Z) (s : Session) : Session :=
  match CurrentFile s with
  | Some f =>
      let f' := set_ClosedAt f closedAt in
      set_OpenFiles (set_CurrentFile s (Some f')) (OpenFiles s ++ [f'])
  | None => s
  end.

Definition archiveCurrentFile (closedAt : Z) : M unit :=
  modify_session (archive closedAt).

Definition updateCurrentFile (path : string) : M unit :=
  do openedAt <- GetTime;
  do r <- reader_Read path;
  match r with
  | None => ret tt
  | Some md =>
      let file := mkFile (Filename md) (RepositoryName md) (MFiletype md)
                    path openedAt 0 0 in
      do _ <- archiveCurrentFile openedAt;
      modify_session (fun s => set_CurrentFile s (Some file))
  end.

Definition createSession (os editor : string) : M unit :=
  do t <- time_Now;
  modify (fun w => set_session w
    (Some (mkSession t 0 0 os editor None [] ∅))).

(** One iteration of the merge loop of [saveSession]. *)
Definition merge_file (files : gmap string File) (f : File) : gmap string File :=
  match files !! Path f with
  | None => <[Path f := set_DurationMs f (wrap64 (ClosedAt f - OpenedAt f))]> files
  | Some cur =>
      <[Path f := set_DurationMs cur
                    (wrap64 (DurationMs cur + wrap64 (ClosedAt f - OpenedAt f)))]> files
  end.

Definition merge_files (s : Session) : Session :=
  if (0 <? length (OpenFiles s))%nat
  then set_Files s (foldl merge_file (Files s) (OpenFiles s))
  else s.

(** The deferred reset of [saveSession]. *)
Definition reset : M unit :=
  modify (fun w => set_session (set_activeClientId w "") None).

Definition saveSession : M unit :=
  do w <- get;
  match session w with
  | None => reset
  | Some _ =>
      do endedAt <- GetTime;
      do _ <- archiveCurrentFile endedAt;
      do _ <- modify_session (fun s => set_Ended s endedAt (wrap64 (endedAt - StartedAt s)));
      do _ <- modify_session merge_files;
      do w <- get;
      match session w with
      | None => nil_deref
      | Some s =>
          if (size (Files s) <? 1)%nat then reset
          else
            do _ <- storage_Save s;
            reset
      end
  end.

(** [app.session == nil] *)
Definition session_is_nil (w : World) : bool :=
  match session w with None => true | Some _ => false end.

(** ** The RPC handlers and the heartbeat check

    Each handler returns its Go [error] result ([None] is [nil]); the
    [reply] strings are not modelled.  [app.mutex] is not modelled here:
    the operations run one at a time in this sequential model. *)

Definition FocusGained (event : Event) : M (option string) :=
  do t <- GetTime;
  do _ <- modify (fun w => set_lastHeartbeat w t);
  do w <- get;
  if String.eqb (activeClientId w) (Id event) then ret None
  else
    do _ <- (match session w with Some _ => saveSession | None => ret tt end);
    do _ <- modify (fun w => set_activeClientId w (Id event));
    do _ <- createSession (EOS event) (EEditor event);
    do _ <- updateCurrentFile (EPath event);
    ret None.

Definition OpenFile (event : Event) : M (option string) :=
  do t <- GetTime;
  do _ <- modify (fun w => set_lastHeartbeat w t);
  do w <- get;
  do _ <- (match session w with
           | None =>
               do _ <- modify (fun w => set_activeClientId w (Id event));
               createSession (EOS event) (EEditor event)
           | Some _ => ret tt
           end);
  do _ <- updateCurrentFile (EPath event);
  ret None.

Definition SendHeartbeat (event : Event) : M (option string) :=
  do w <- get;
  do _ <- (match session w with
           | None =>
               do _ <- modify (fun w => set_activeClientId w (Id event));
               do _ <- createSession (EOS event) (EEditor event);
               updateCurrentFile (EPath event)
           | Some _ => ret tt
           end);
  do t <- GetTime;
  do _ <- modify (fun w => set_lastHeartbeat w t);
  ret None.

Definition EndSession (event : Event) : M (option string) :=
  do w <- get;
  do _ <- (if (1 <? String.length (activeClientId w))%nat
              && negb (String.eqb (activeClientId w) (Id event))
           then PrintFatal else ret tt);
  do w <- get;
  if String.eqb (activeClientId w) "" && session_is_nil w then ret None
  else
    do _ <- saveSession;
    ret None.

(** [app.session != nil && app.lastHeartbeat+HeartbeatTTL.Milliseconds() <
    app.clock.GetTime()]: the clock is read only when the session is set. *)
Definition heartbeat_stale : M bool :=
  do w <- get;
  match session w with
  | None => ret false
  | Some _ =>
      do now <- GetTime;
      ret (wrap64 (lastHeartbeat w + HeartbeatTTL_ms) <? now)
  end.

(** The condition is evaluated before [app.mutex.Lock()]; the locked part
    is [saveSession]. *)
Definition CheckHeartbeat : M unit :=
  do stale <- heartbeat_stale;
  if stale then saveSession else ret tt.

(** The operations of the engine, as invoked by the RPC server and the
    heartbeat ticker. *)
Inductive Op :=
| OpFocusGained (e : Event)
| OpOpenFile (e : Event)
| OpSendHeartbeat (e : Event)
| OpEndSession (e : Event)
| OpCheckHeartbeat.

Definition run_op (o : Op) : M unit :=
  match o with
  | OpFocusGained e => do _ <- FocusGained e; ret tt
  | OpOpenFile e => do _ <- OpenFile e; ret tt
  | OpSendHeartbeat e => do _ <- SendHeartbeat e; ret tt
  | OpEndSession e => do _ <- EndSession e; ret tt
  | OpCheckHeartbeat => CheckHeartbeat
  end.

(** [New]: no active client, no session. *)
Definition initial (clk wall : nat -> Z) (rd : string -> option FileMetadata)
    (st : Session -> option string) : World :=
  mkWorld "" 0 None clk wall 0 rd st [].

(** Worlds reachable from [New] by operations that returned normally
    (a [Fatal] or [Panic] outcome ends the process). *)
Inductive reachable : World -> Prop :=
| reach_init clk wall rd st : reachable (initial clk wall rd st)
| reach_step w o w' :
    reachable w -> run_op o w = (Normal tt, w') -> reachable w'.

(** A test world: constant clocks, a reader that resolves every path and a
    store that accepts every session. *)
Definition md0 : FileMetadata := mkFileMetadata "a.go" "repo" "go".
Definition test_world (clk wall : Z) : World :=
  initial (fun _ => clk) (fun _ => wall) (fun _ => Some md0) (fun _ => None).
Definition evA : Event := mkEvent "A" "linux" "nvim" "/repo/a.go".
Definition evB : Event := mkEvent "B" "linux" "nvim" "/repo/a.go".

(** A world with an empty session, the last heartbeat at [0] and the clock
    at [now]. *)
Definition sess0 : Session := mkSession 0 0 0 "linux" "nvim" None [] ∅.
Definition w_active (now : Z) : World :=
  mkWorld "A" 0 (Some sess0) (fun _ => now) (fun _ => 0) 0
    (fun _ => Some md0) (fun _ => None) [].

(** [w_active 3] with a reader that resolves no path. *)
Definition w_noread : World :=
  mkWorld "A" 0 (Some sess0) (fun _ => 3) (fun _ => 0) 0
    (fun _ => None) (fun _ => None) [].

(** Client [A] focused with the injected clock at [5] and the wall clock
    at [7]. *)
Definition w_A : World := snd (FocusGained evA (test_world 5 7)).

(** The scenario of the spec: [/repo/a.go] open over [0, 1000), then
    [/repo/b.go], then [/repo/a.go] again from [2000], the session closed
    at [2500].  Each [OpenFile] reads the clock twice (heartbeat, open
    time); the first also reads the wall clock for [createSession]. *)
Definition evA_b : Event := mkEvent "A" "linux" "nvim" "/repo/b.go".
Definition clk_scn (n : nat) : Z := nth n [0; 0; 0; 1000; 1000; 2000; 2000; 2500] 2500.
Definition w_scn0 : World :=
  initial clk_scn (fun _ => 0) (fun _ => Some md0) (fun _ => None).
Definition w_scn1 : World := snd (run_op (OpOpenFile evA) w_scn0).
Definition w_scn2 : World := snd (run_op (OpOpenFile evA_b) w_scn1).
Definition w_scn : World := snd (run_op (OpOpenFile evA) w_scn2).

(** A clock that first reads [int64_max], then [0]. *)
Definition clk_max_then_zero (n : nat) : Z :=
  match n with O => int64_max | S _ => 0 end.

(** The world after one [OpenFile] at clock reading [int64_max]. *)
Definition w_late : World :=
  snd (OpenFile evA (initial clk_max_then_zero (fun _ => 0)
                        (fun _ => Some md0) (fun _ => None))).


(** ** Lock placement

    Each operation as the sequence of its steps relative to [app.mutex]:
    [Access] reads or writes a field of [app], [Local] touches nothing
    shared (logging).  Consecutive accesses inside one critical section
    are collapsed into one [Access]. *)
Module Locking.

Inductive instr := Lock | Unlock | Access | Local.

Definition FocusGained_prog : list instr := [Lock; Access; Unlock].
Definition OpenFile_prog : list instr := [Local; Lock; Access; Unlock].
Definition SendHeartbeat_prog : list instr := [Lock; Access; Unlock].
Definition EndSession_prog : list instr := [Lock; Access; Unlock].

(** [CheckHeartbeat] when the condition holds: the log line, the reads of
    [app.session] and [app.lastHeartbeat], then [Lock] and [saveSession];
    [defer Unlock] runs on return. *)
Definition CheckHeartbeat_prog : list instr := [Local; Access; Lock; Access; Unlock].

(** Every access of a program happens while it holds the mutex. *)
Fixpoint guarded_from (held : bool) (p : list instr) : bool :=
  match p with
  | [] => true
  | Lock :: p => guarded_from true p
  | Unlock :: p => guarded_from false p
  | Access :: p => held && guarded_from held p
  | Local :: p => guarded_from held p
  end.

Definition guarded (p : list instr) : bool := guarded_from false p.

(** Interleaved execution: the owner of the mutex and the remaining
    program of each goroutine.  [Lock] blocks while another goroutine owns
    the mutex. *)
Record config := mkConfig { owner : option nat; threads : list (list instr) }.

(** One step of goroutine [i]: the instruction it executed and the owner
    of the mutex at that moment. *)
Definition step (c : config) (i : nat) : option (instr * option nat * config) :=
  match threads c !! i with
  | Some (ins :: rest) =>
      let ts := <[i := rest]> (threads c) in
      match ins with
      | Lock =>
          match owner c with
          | None => Some (Lock, owner c, mkConfig (Some i) ts)
          | Some _ => None
          end
      | Unlock => Some (Unlock, owner c, mkConfig None ts)
      | _ => Some (ins, owner c, mkConfig (owner c) ts)
      end
  | _ => None
  end.

(** Runs a schedule; the trace lists (goroutine, instruction, owner). *)
Fixpoint run (c : config) (sched : list nat) : option (list (nat * instr * option nat)) :=
  match sched with
  | [] => Some []
  | i :: sched' =>
      match step c i with
      | None => None
      | Some (ins, o, c') =>
          match run c' sched' with
          | None => None
          | Some tr => Some ((i, ins, o) :: tr)
          end
      end
  end.

(** Goroutine [i] accessed [app] while goroutine [j <> i] owned the mutex. *)
Definition interleaved (tr : list (nat * instr * option nat)) : Prop :=
  exists i j, In (i, Access, Some j) tr /\ i <> j.

(** The discipline of the handlers ([Lock] then [defer Unlock]): [Lock]
    only when not holding the mutex, [Access] and [Unlock] only while
    holding it, and the mutex released at the end. *)
Fixpoint wb_from (held : bool) (p : list instr) : bool :=
  match p with
  | [] => negb held
  | Lock :: p => negb held && wb_from true p
  | Unlock :: p => held && wb_from false p
  | Access :: p => held && wb_from held p
  | Local :: p => wb_from held p
  end.

Definition well_bracketed (p : list instr) : bool := wb_from false p.

(** Each goroutine's remaining program is well bracketed from its own
    view of the mutex. *)
Definition lock_inv (c : config) : Prop :=
  forall i p, threads c !! i = Some p -> wb_from (bool_decide (owner c = Some i)) p = true.

End Locking.

(** ** Day aggregation ([domain.Sessions.Aggregate]) *)
Module Domain.

(** Modelled from the spec: the fields of [domain.Session] and of its files
    that aggregation reads (the [domain] types are not in the sources). *)
Record File := mkFile { Repository : string; DurationMs : Z }.
Record Session := mkSession { StartedAt : Z; SDurationMs : Z; Files : list File }.

Inductive Period := Day | Week | Month | Year.

Record AggregatedSession := mkAggregatedSession {
  APeriod : Period;
  Date : Z;
  DateString : string;
  TotalTimeMs : Z;
  Repositories : gmap string Z
}.

Definition day_ms : Z := 24 * 60 * 60 * 1000.

(** Modelled from the spec: [truncate.Day] (package [truncate] is not in
    the sources), the UTC midnight at or before a millisecond timestamp. *)
Definition truncate_Day (t : Z) : Z := t - t mod day_ms.

Definition groupByDay (sessions : list Session) : gmap Z (list Session) :=
  foldl (fun buckets s =>
           let d := truncate_Day (StartedAt s) in
           <[d := default [] (buckets !! d) ++ [s]]> buckets)
        ∅ sessions.

(** The sessions of [sessions] that start on day [d], in input order. *)
Definition day_bucket (sessions : list Session) (d : Z) : list Session :=
  filter (fun s => truncate_Day (StartedAt s) = d) sessions.

(** The sessions of all buckets of a [groupByDay] map, bucket after bucket. *)
Definition bucketed (m : gmap Z (list Session)) : list Session :=
  concat (map snd (map_to_list m)).

(** Modelled from the spec: [sessionRepositories] (not in the sources),
    adding every file's duration to its repository's running total, over
    all sessions and files of the bucket, in Go [int64] arithmetic. *)
Definition add_repo (repos : gmap string Z) (f : File) : gmap string Z :=
  <[Repository f := wrap64 (default 0 (repos !! Repository f) + DurationMs f)]> repos.

Definition sessionRepositories (sessions : list Session) : gmap string Z :=
  foldl (fun repos s => foldl add_repo repos (Files s)) ∅ sessions.

(** [totalTime += tempSession.DurationMs] *)
Definition total_time (sessions : list Session) : Z :=
  foldl (fun acc s => wrap64 (acc + SDurationMs s)) 0 sessions.

Section Aggregate.

(** [time.Unix(0, date*int64(time.Millisecond)).Format(yymmdd)] *)
Variable format_yymmdd : Z -> string.

Definition aggregate_bucket (entry : Z * list Session) : AggregatedSession :=
  let '(date, tempSessions) := entry in
  mkAggregatedSession Day date (format_yymmdd date)
    (total_time tempSessions) (sessionRepositories tempSessions).

(** The [range] over [sessionsPerDay] visits the buckets in an unspecified
    order; the model takes the order of [map_to_list]. *)
Definition Aggregate (sessions : list Session) : list AggregatedSession :=
  map aggregate_bucket (map_to_list (groupByDay sessions)).

End Aggregate.

End Domain.

(** The session [saveSession] hands to the store when the clock reads
    [t]: the current file archived, [EndedAt] and [DurationMs] set, the
    open intervals merged by path. *)
Definition closed_session (t : Z) (s : Session) : Session :=
  merge_files (set_Ended (archive t s) t (wrap64 (t - StartedAt s))).

(** The engine after the deferred reset of [saveSession]. *)
Definition idle (w : World) : World := set_session (set_activeClientId w "") None.

(** Every session a computation hands to the store has a non-empty
    [Files] map. *)
Definition saves_nonempty {A} (m : M A) : Prop :=
  forall w, exists new,
    w_saved (snd (m w)) = w_saved w ++ new
    /\ Forall (fun s => Files s <> ∅) new.

(** Outside [saveSession], a session's [Files] map is empty. *)
Definition files_empty (w : World) : Prop :=
  forall s, session w = Some s -> Files s = ∅.

Definition keeps_files_empty {A} (m : M A) : Prop :=
  forall w, files_empty w -> files_empty (snd (m w)).

Definition zsum (l : list Z) : Z := foldr Z.add 0 l.

(** The archived intervals of a session closed at [t]: [OpenFiles], then
    the current file with [ClosedAt = t]. *)
Definition intervals_at (t : Z) (s : Session) : list File :=
  OpenFiles s ++ match CurrentFile s with
                 | Some f => [set_ClosedAt f t]
                 | None => []
                 end.

Definition durations (gs : list File) : list Z :=
  map (fun g => ClosedAt g - OpenedAt g) gs.

(** The session open in [w_scn] ([a.go] 0..1000, [b.go] 1000..2000, [a.go]
    again from 2000) and the session [saveSession] stores from it at 2500. *)
Definition sess_scn : Session :=
  match session w_scn with Some s => s | None => sess0 end.

Definition saved_scn : Session :=
  match last (w_saved (snd (saveSession w_scn))) with
  | Some s => s
  | None => sess0
  end.

(** A session that is still open: not closed ([EndedAt], [DurationMs]
    unset), no merged [Files], no duration on any recorded interval, and
    the current file not closed yet. *)
Definition open_session (s : Session) : Prop :=
  EndedAt s = 0 /\ SDurationMs s = 0 /\ Files s = ∅
  /\ Forall (fun f => DurationMs f = 0) (OpenFiles s)
  /\ (forall f, CurrentFile s = Some f -> ClosedAt f = 0 /\ DurationMs f = 0).

(** Idle means no active client; a session that exists is open. *)
Definition engine_inv (w : World) : Prop :=
  match session w with
  | None => activeClientId w = ""
  | Some s => open_session s
  end.

Definition keeps_inv {A} (m : M A) : Prop :=
  forall w, engine_inv w -> engine_inv (snd (m w)).

(** ** Functional options of [app.New] *)
Module AppOptions.

Section Options.

(** The collaborators of [app]: [clock.Clock], [MetadataReader], [storage]
    and [*logger.Logger]; a Go [nil] is [None]. *)
Variables (Clock Reader Storage Logger : Type).

(** The fields of [app] that [New] sets; the others keep their zero values. *)
Record app := mkApp {
  clock : option Clock;
  reader : option Reader;
  storage : option Storage;
  log : option Logger
}.

(** [type option func( *app) error], by the constructor that built it. *)
Inductive Option :=
| WithClock (c : option Clock)
| WithMetadataReader (r : option Reader)
| WithStorage (st : option Storage)
| WithLog (l : option Logger).

(** The body of the closure: the error it returns, or the updated [app]. *)
Definition run_option (o : Option) (a : app) : string + app :=
  match o with
  | WithClock None => inl "clock is nil"
  | WithClock c => inr (mkApp c (reader a) (storage a) (log a))
  | WithMetadataReader None => inl "reader is nil"
  | WithMetadataReader r => inr (mkApp (clock a) r (storage a) (log a))
  | WithStorage None => inl "storage is nil"
  | WithStorage st => inr (mkApp (clock a) (reader a) st (log a))
  | WithLog None => inl "log is nil"
  | WithLog l => inr (mkApp (clock a) (reader a) (storage a) l)
  end.

Fixpoint apply_options (a : app) (opts : list Option) : string + app :=
  match opts with
  | [] => inr a
  | o :: opts' =>
      match run_option o a with
      | inl e => inl e
      | inr a' => apply_options a' opts'
      end
  end.

(** [New]: [clock.New()] and [FileMetadataReader{}] (not in the sources)
    are the arguments [clock_New] and [reader_default]; on the first error
    it returns [&app{}] and the error. *)
Definition New (clock_New : Clock) (reader_default : Reader) (opts : list Option)
    : app * option string :=
  match apply_options (mkApp (Some clock_New) (Some reader_default) None None) opts with
  | inl e => (mkApp None None None None, Some e)
  | inr a => (a, None)
  end.

(** The option was given a [nil] collaborator. *)
Definition option_is_nil (o : Option) : bool :=
  match o with
  | WithClock c => bool_decide (c = None)
  | WithMetadataReader r => bool_decide (r = None)
  | WithStorage st => bool_decide (st = None)
  | WithLog l => bool_decide (l = None)
  end.

Definition sets_storage (o : Option) : bool :=
  match o with WithStorage _ => true | _ => false end.

(** No option of [opts] was given [nil]. *)
Definition non_nil (opts : list Option) : bool :=
  forallb (fun o => negb (option_is_nil o)) opts.

(** The error an option returns when given [nil]. *)
Definition nil_error (o : Option) : string :=
  match o with
  | WithClock _ => "clock is nil"
  | WithMetadataReader _ => "reader is nil"
  | WithStorage _ => "storage is nil"
  | WithLog _ => "log is nil"
  end.

End Options.

Arguments mkApp {Clock Reader Storage Logger} _ _ _ _.
Arguments clock {Clock Reader Storage Logger} _.
Arguments reader {Clock Reader Storage Logger} _.
Arguments storage {Clock Reader Storage Logger} _.
Arguments log {Clock Reader Storage Logger} _.
Arguments WithClock {Clock Reader Storage Logger} _.
Arguments WithMetadataReader {Clock Reader Storage Logger} _.
Arguments WithStorage {Clock Reader Storage Logger} _.
Arguments WithLog {Clock Reader Storage Logger} _.
Arguments run_option {Clock Reader Storage Logger} _ _.
Arguments apply_options {Clock Reader Storage Logger} _ _.
Arguments New {Clock Reader Storage Logger} _ _ _.
Arguments option_is_nil {Clock Reader Storage Logger} _.
Arguments sets_storage {Clock Reader Storage Logger} _.
Arguments non_nil {Clock Reader Storage Logger} _.
Arguments nil_error {Clock Reader Storage Logger} _.

End AppOptions.

(** ** Functional options of [server.New] ([server/options.go]) *)
Module ServerOptions.

Section Options.

(** [Clock], [FileReader], [storage.TemporaryStorage] and [Log]. *)
Variables (Clock FileReader Storage Log : Type).

Record server := mkServer {
  serverName : string;
  clock : option Clock;
  fileReader : option FileReader;
  storage : option Storage;
  log : option Log
}.

Inductive Option :=
| WithClock (c : option Clock)
| WithFileReader (r : option FileReader)
| WithStorage (st : option Storage)
| WithLog (l : option Log).

Definition run_option (o : Option) (a : server) : string + server :=
  match o with
  | WithClock None => inl "clock is nil"
  | WithClock c => inr (mkServer (serverName a) c (fileReader a) (storage a) (log a))
  | WithFileReader None => inl "reader is nil"
  | WithFileReader r => inr (mkServer (serverName a) (clock a) r (storage a) (log a))
  | WithStorage None => inl "storage is nil"
  | WithStorage st => inr (mkServer (serverName a) (clock a) (fileReader a) st (log a))
  | WithLog None => inl "log is nil"
  | WithLog l => inr (mkServer (serverName a) (clock a) (fileReader a) (storage a) l)
  end.

Fixpoint apply_options (a : server) (opts : list Option) : string + server :=
  match opts with
  | [] => inr a
  | o :: opts' =>
      match run_option o a with
      | inl e => inl e
      | inr a' => apply_options a' opts'
      end
  end.

(** [New]: [clock.New()] and [filereader.New()] (not in the sources) are
    the arguments [clock_New] and [filereader_New]. *)
Definition New (name : string) (clock_New : Clock) (filereader_New : FileReader)
    (opts : list Option) : server * option string :=
  match apply_options (mkServer name (Some clock_New) (Some filereader_New) None None) opts with
  | inl e => (mkServer "" None None None None, Some e)
  | inr a => (a, None)
  end.

Definition option_is_nil (o : Option) : bool :=
  match o with
  | WithClock c => bool_decide (c = None)
  | WithFileReader r => bool_decide (r = None)
  | WithStorage st => bool_decide (st = None)
  | WithLog l => bool_decide (l = None)
  end.

Definition non_nil (opts : list Option) : bool :=
  forallb (fun o => negb (option_is_nil o)) opts.

Definition nil_error (o : Option) : string :=
  match o with
  | WithClock _ => "clock is nil"
  | WithFileReader _ => "reader is nil"
  | WithStorage _ => "storage is nil"
  | WithLog _ => "log is nil"
  end.

End Options.

Arguments mkServer {Clock FileReader Storage Log} _ _ _ _ _.
Arguments serverName {Clock FileReader Storage Log} _.
Arguments clock {Clock FileReader Storage Log} _.
Arguments fileReader {Clock FileReader Storage Log} _.
Arguments storage {Clock FileReader Storage Log} _.
Arguments log {Clock FileReader Storage Log} _.
Arguments WithClock {Clock FileReader Storage Log} _.
Arguments WithFileReader {Clock FileReader Storage Log} _.
Arguments WithStorage {Clock FileReader Storage Log} _.
Arguments WithLog {Clock FileReader Storage Log} _.
Arguments run_option {Clock FileReader Storage Log} _ _.
Arguments apply_options {Clock FileReader Storage Log} _ _.
Arguments New {Clock FileReader Storage Log} _ _ _ _.
Arguments option_is_nil {Clock FileReader Storage Log} _.
Arguments non_nil {Clock FileReader Storage Log} _.
Arguments nil_error {Clock FileReader Storage Log} _.

End ServerOptions.

(** * Properties *)

Create HintDb engine.

Ltac unfold_engine :=
  unfold run_op, FocusGained, OpenFile, SendHeartbeat, EndSession,
    CheckHeartbeat, heartbeat_stale, saveSession, reset, merge_files,
    createSession, updateCurrentFile, archiveCurrentFile, modify_session,
    PrintFatal, storage_Save, reader_Read, time_Now, GetTime,
    halt_fatal, nil_deref, modify, get, bind, ret in *.

Ltac destruct_if :=
  lazymatch goal with
  | |- context [if ?b then _ else _] => destruct b eqn:?
  end.

(** ** int64 arithmetic *)

Lemma wrap64_add_l (x y : Z) : wrap64 (wrap64 x + y) = wrap64 (x + y).
Proof.
  unfold wrap64, int64_modulus.
  replace ((x + 2 ^ 63) mod 2 ^ 64 - 2 ^ 63 + y + 2 ^ 63)
    with ((x + 2 ^ 63) mod 2 ^ 64 + y) by lia.
  rewrite Zplus_mod_idemp_l. f_equal. f_equal. lia.
Qed.

Lemma wrap64_add_r (x y : Z) : wrap64 (x + wrap64 y) = wrap64 (x + y).
Proof. rewrite Z.add_comm, wrap64_add_l. f_equal. lia. Qed.

Lemma wrap64_id (x : Z) : int64_min <= x <= int64_max -> wrap64 x = x.
Proof.
  unfold wrap64, int64_min, int64_max, int64_modulus. intros H.
  rewrite Z.mod_small; lia.
Qed.

(** ** C4: a repeated focus from the active client *)

(** C4: when [event.Id] equals the active client id, [FocusGained] only
    reads the clock and stores the reading in [lastHeartbeat]: the session
    (with its current file and open files) and the active client id are
    those of the input world. *)
Theorem FocusGained_same_client_noop (event : Event) (w : World)
    (Hsame : activeClientId w = Id event) :
  FocusGained event w
  = (Normal None, set_lastHeartbeat (tick w) (w_clock w (w_ticks w)))
  /\ session (snd (FocusGained event w)) = session w
  /\ activeClientId (snd (FocusGained event w)) = activeClientId w
  /\ lastHeartbeat (snd (FocusGained event w)) = w_clock w (w_ticks w).
Proof.
  assert (Heq : FocusGained event w
                = (Normal None, set_lastHeartbeat (tick w) (w_clock w (w_ticks w)))).
  { unfold_engine. simpl. rewrite Hsame, String.eqb_refl. reflexivity. }
  rewrite Heq. simpl. auto.
Qed.

Lemma FocusGained_same_client_noop_witness :
  activeClientId (snd (FocusGained evA (test_world 0 0))) = Id evA
  /\ session (snd (FocusGained evA (snd (FocusGained evA (test_world 0 0)))))
     = session (snd (FocusGained evA (test_world 0 0))).
Proof.
  split; [reflexivity |].
  exact (proj1 (proj2 (FocusGained_same_client_noop evA
                          (snd (FocusGained evA (test_world 0 0))) eq_refl))).
Defined.

(** ** C6: every close path returns the engine to Idle *)

(** [saveSession] on every path: a normal return, no client, no session. *)
Lemma saveSession_idle (w : World) :
  fst (saveSession w) = Normal tt
  /\ activeClientId (snd (saveSession w)) = ""
  /\ session (snd (saveSession w)) = None.
Proof.
  unfold_engine. simpl.
  destruct (session w) as [s |] eqn:E; cbn; rewrite ?E; cbn; [| auto].
  destruct_if; cbn; auto.
Qed.

(** C6: [saveSession] always returns normally (it has no error result, so
    a [storage.Save] error is not passed on) and leaves no active client
    and no session, whether the session was missing, had no files, or was
    handed to a store that failed or succeeded. *)
Theorem saveSession_resets (w : World) :
  fst (saveSession w) = Normal tt
  /\ activeClientId (snd (saveSession w)) = ""
  /\ session (snd (saveSession w)) = None.
Proof. exact (saveSession_idle w). Qed.

(** ** C3: the heartbeat check *)

(** The heartbeat condition of the source, [lastHeartbeat + TTL < now] in
    [int64], read as [now - lastHeartbeat > TTL] when the sum does not
    overflow. *)
Lemma stale_condition (lhb now : Z) :
  int64_min <= lhb -> lhb + HeartbeatTTL_ms <= int64_max ->
  (wrap64 (lhb + HeartbeatTTL_ms) <? now) = (HeartbeatTTL_ms <? now - lhb).
Proof.
  intros Hlo Hhi.
  rewrite wrap64_id by (unfold HeartbeatTTL_ms in *; lia).
  destruct (Z.ltb_spec (lhb + HeartbeatTTL_ms) now);
    destruct (Z.ltb_spec HeartbeatTTL_ms (now - lhb)); lia.
Qed.

(** C3 (amended): with a session set and [lastHeartbeat + TTL] within
    [int64], [CheckHeartbeat] reads the clock once and runs the close path
    [saveSession] exactly when [now - lastHeartbeat > TTL]; otherwise,
    and in particular when [now - lastHeartbeat = TTL], it leaves the
    engine (session included) as it was. *)
Theorem CheckHeartbeat_closes_iff_stale (w : World) (sess : Session)
    (Hs : session w = Some sess)
    (Hlo : int64_min <= lastHeartbeat w)
    (Hhi : lastHeartbeat w + HeartbeatTTL_ms <= int64_max) :
  CheckHeartbeat w
  = if HeartbeatTTL_ms <? w_clock w (w_ticks w) - lastHeartbeat w
    then saveSession (tick w)
    else (Normal tt, tick w).
Proof.
  unfold CheckHeartbeat, heartbeat_stale, GetTime, get, bind, ret.
  cbn -[saveSession]. rewrite Hs. cbn -[saveSession].
  rewrite stale_condition by assumption.
  destruct_if; reflexivity.
Qed.

Lemma CheckHeartbeat_closes_iff_stale_witness :
  CheckHeartbeat (w_active 600001) = saveSession (tick (w_active 600001))
  /\ CheckHeartbeat (w_active 600000) = (Normal tt, tick (w_active 600000)).
Proof.
  split.
  - rewrite (CheckHeartbeat_closes_iff_stale (w_active 600001) sess0 eq_refl)
      by (vm_compute; congruence).
    reflexivity.
  - rewrite (CheckHeartbeat_closes_iff_stale (w_active 600000) sess0 eq_refl)
      by (vm_compute; congruence).
    reflexivity.
Defined.

(** C3 as stated fails when [lastHeartbeat + TTL] overflows: at
    [lastHeartbeat = int64_max] and [now = 0], [now - lastHeartbeat] is
    negative, yet [CheckHeartbeat] closes the session and hands it to the
    store. *)
Lemma CheckHeartbeat_overflow_closes :
  reachable w_late
  /\ session w_late <> None
  /\ lastHeartbeat w_late = int64_max
  /\ w_clock w_late (w_ticks w_late) = 0
  /\ ~ (HeartbeatTTL_ms < 0 - int64_max)
  /\ session (snd (CheckHeartbeat w_late)) = None
  /\ length (w_saved (snd (CheckHeartbeat w_late))) = 1%nat.
Proof.
  split.
  { apply (reach_step (initial clk_max_then_zero (fun _ => 0)
                          (fun _ => Some md0) (fun _ => None)) (OpOpenFile evA));
      [apply reach_init | vm_compute; reflexivity]. }
  vm_compute. repeat split; try congruence; try lia.
Qed.

(** ** C1: [EndSession] from a client that is not the active one *)

(** The fatal branch of [EndSession], when taken, halts before any write:
    the world is returned as it was. *)
Lemma EndSession_foreign_client_fatal (event : Event) (w : World)
    (Hlen : (1 < String.length (activeClientId w))%nat)
    (Hne : activeClientId w <> Id event) :
  EndSession event w = (Fatal, w).
Proof.
  unfold EndSession, PrintFatal, halt_fatal, get, bind, ret.
  apply Nat.ltb_lt in Hlen. apply String.eqb_neq in Hne.
  cbn -[Nat.ltb String.eqb]. rewrite Hlen, Hne. reflexivity.
Qed.

(** C1 (code bug): the guard is [len(app.activeClientId) > 1], so a
    one-character active client id never reaches [PrintFatal].  With [A]
    active, [EndSession] from [B] returns normally after closing [A]'s
    session and handing it to the store. *)
Lemma EndSession_one_char_client_not_fatal :
  activeClientId w_A = "A"
  /\ session w_A <> None
  /\ Id evB = "B"
  /\ fst (EndSession evB w_A) = Normal None
  /\ session (snd (EndSession evB w_A)) = None
  /\ length (w_saved (snd (EndSession evB w_A))) = 1%nat.
Proof. vm_compute. repeat split; congruence. Qed.


(** ** Closed forms of the helpers *)

Lemma archive_StartedAt (t : Z) (s : Session) : StartedAt (archive t s) = StartedAt s.
Proof. unfold archive. destruct (CurrentFile s); reflexivity. Qed.

Lemma saveSession_eq (w : World) (s : Session) (Hs : session w = Some s) :
  saveSession w =
  let s' := closed_session (w_clock w (w_ticks w)) s in
  if (size (Files s') <? 1)%nat then (Normal tt, idle (tick w))
  else (Normal tt, idle (record_save (tick w) s')).
Proof.
  unfold saveSession, closed_session, idle, reset, storage_Save,
    archiveCurrentFile, modify_session, GetTime, modify, get, bind, ret.
  cbn -[merge_files archive Nat.ltb]. rewrite Hs. cbn -[merge_files archive Nat.ltb].
  rewrite Hs. cbn -[merge_files archive Nat.ltb].
  rewrite archive_StartedAt. destruct_if; reflexivity.
Qed.

Lemma createSession_eq (os editor : string) (w : World) :
  createSession os editor w
  = (Normal tt, set_session (tick w)
       (Some (mkSession (w_wall w (w_ticks w)) 0 0 os editor None [] ∅))).
Proof. reflexivity. Qed.

Lemma updateCurrentFile_eq (path : string) (w : World) (s : Session)
    (Hs : session w = Some s) :
  updateCurrentFile path w
  = let t := w_clock w (w_ticks w) in
    match w_reader w path with
    | None => (Normal tt, tick w)
    | Some md =>
        (Normal tt, set_session (tick w)
           (Some (set_CurrentFile (archive t s)
                    (Some (mkFile (Filename md) (RepositoryName md)
                             (MFiletype md) path t 0 0)))))
    end.
Proof.
  unfold updateCurrentFile, archiveCurrentFile, modify_session, reader_Read,
    GetTime, modify, get, bind, ret.
  cbn -[archive]. destruct (w_reader w path); [| reflexivity].
  cbn -[archive]. rewrite Hs. cbn -[archive]. rewrite ?Hs. reflexivity.
Qed.

(** [EndSession] from the active client with a session is [saveSession]. *)
Lemma EndSession_active_eq (event : Event) (w : World) (s : Session)
    (Ha : activeClientId w = Id event) (Hs : session w = Some s) :
  EndSession event w = (Normal None, snd (saveSession w)).
Proof.
  pose proof (saveSession_idle w) as [Hr _].
  unfold EndSession, session_is_nil, PrintFatal, get, bind, ret.
  cbn -[saveSession Nat.ltb String.eqb].
  rewrite Ha, String.eqb_refl, !Bool.andb_false_r.
  cbn -[saveSession Nat.ltb String.eqb].
  rewrite Ha, Hs, !Bool.andb_false_r.
  cbn -[saveSession Nat.ltb String.eqb].
  destruct (saveSession w) as [[u | |] w']; cbn in *; congruence.
Qed.

(** [FocusGained] of a new client on an engine without a session. *)
Lemma FocusGained_idle_eq (event : Event) (w : World)
    (Hidle : session w = None) (Hother : activeClientId w <> Id event) :
  FocusGained event w
  = (do _ <- createSession (EOS event) (EEditor event);
     do _ <- updateCurrentFile (EPath event);
     ret None)
      (set_activeClientId (set_lastHeartbeat (tick w) (w_clock w (w_ticks w)))
         (Id event)).
Proof.
  apply String.eqb_neq in Hother.
  unfold FocusGained, GetTime, modify, get, bind, ret.
  cbn -[createSession updateCurrentFile String.eqb].
  rewrite Hother, Hidle. reflexivity.
Qed.

(** ** C10: session start from the wall clock, end from the injected clock *)

(** C10: [createSession] stamps [StartedAt] with the wall clock and
    [saveSession] stamps [EndedAt] with the injected clock.  From an idle
    engine, a [FocusGained] followed by an [EndSession] of the same client
    hands to the store a session started at the wall reading [W] and ended
    at the clock reading [T]; whenever [T < W] (and [T - W] fits in
    [int64]), [EndedAt < StartedAt] and [DurationMs = T - W < 0]. *)
Theorem session_started_by_wall_clock (event : Event) (w : World)
    (md : FileMetadata) (T W : Z)
    (Hidle : session w = None) (Hother : activeClientId w <> Id event)
    (Hclk : forall n, w_clock w n = T) (Hwall : forall n, w_wall w n = W)
    (Hrd : w_reader w (EPath event) = Some md)
    (Hlt : T < W) (Hrange : W - T <= 2 ^ 63) :
  fst (FocusGained event w) = Normal None
  /\ fst (EndSession event (snd (FocusGained event w))) = Normal None
  /\ exists s,
       w_saved (snd (EndSession event (snd (FocusGained event w))))
       = w_saved w ++ [s]
       /\ StartedAt s = W /\ EndedAt s = T /\ SDurationMs s = T - W
       /\ EndedAt s < StartedAt s /\ SDurationMs s < 0.
Proof.
  set (file := mkFile (Filename md) (RepositoryName md) (MFiletype md)
                 (EPath event) T 0 0).
  set (s1 := mkSession W 0 0 (EOS event) (EEditor event) (Some file) [] ∅).
  assert (HF : exists w1, FocusGained event w = (Normal None, w1)
            /\ activeClientId w1 = Id event /\ session w1 = Some s1
            /\ w_clock w1 = w_clock w /\ w_saved w1 = w_saved w).
  { rewrite (FocusGained_idle_eq event w Hidle Hother).
    unfold bind. rewrite createSession_eq.
    cbv beta iota.
    erewrite updateCurrentFile_eq by reflexivity.
    cbn [w_reader set_session set_activeClientId set_lastHeartbeat tick].
    rewrite Hrd. cbv beta iota. unfold ret.
    eexists. split; [reflexivity |].
    cbn. rewrite !Hwall, !Hclk. auto. }
  destruct HF as (w1 & -> & Ha & Hs & Hc & Hsv). cbn [fst snd].
  erewrite EndSession_active_eq by eassumption.
  rewrite (saveSession_eq _ _ Hs). rewrite Hc, Hclk.
  assert (Hcs : Files (closed_session T s1)
                = {[EPath event := set_DurationMs (set_ClosedAt file T) (wrap64 (T - T))]}).
  { unfold closed_session, merge_files, archive. cbn -[wrap64].
    unfold merge_file. rewrite lookup_empty. apply insert_empty. }
  cbv zeta. rewrite Hcs, map_size_singleton. cbn -[closed_session wrap64].
  split; [reflexivity |]. split; [reflexivity |].
  eexists. split; [rewrite Hsv; reflexivity |].
  assert (Hw : wrap64 (T - W) = T - W).
  { apply wrap64_id. unfold int64_min, int64_max. lia. }
  unfold closed_session, merge_files, archive. cbn -[wrap64].
  rewrite Hw. split; [reflexivity |]. split; [reflexivity |].
  split; [reflexivity |]. split; lia.
Qed.

Lemma session_started_by_wall_clock_witness :
  exists s,
    w_saved (snd (EndSession evA (snd (FocusGained evA (test_world 5 7)))))
    = [] ++ [s]
    /\ StartedAt s = 7 /\ EndedAt s = 5 /\ SDurationMs s = 5 - 7
    /\ EndedAt s < StartedAt s /\ SDurationMs s < 0.
Proof.
  refine (proj2 (proj2 (session_started_by_wall_clock evA (test_world 5 7)
            md0 5 7 eq_refl _ (fun _ => eq_refl) (fun _ => eq_refl)
            eq_refl _ _))).
  - cbv. congruence.
  - lia.
  - lia.
Defined.

(** ** C5: only sessions with files reach the store *)

Create HintDb saves.

Lemma saves_bind {A B} (m : M A) (k : A -> M B) :
  saves_nonempty m -> (forall a, saves_nonempty (k a)) -> saves_nonempty (bind m k).
Proof.
  intros Hm Hk w. unfold bind.
  destruct (Hm w) as (n1 & E1 & F1).
  destruct (m w) as [[a | |] w1]; cbn in E1 |- *;
    [| exists n1; auto | exists n1; auto].
  destruct (Hk a w1) as (n2 & E2 & F2).
  exists (n1 ++ n2). rewrite E2, E1, app_assoc. split; [reflexivity |].
  apply Forall_app. auto.
Qed.

Lemma saves_ret {A} (a : A) : saves_nonempty (ret a).
Proof. intros w. exists []. rewrite app_nil_r. auto. Qed.

Lemma saves_local {A} (m : M A) :
  (forall w, w_saved (snd (m w)) = w_saved w) -> saves_nonempty m.
Proof. intros H w. exists []. rewrite app_nil_r. auto. Qed.

Lemma saves_saveSession : saves_nonempty saveSession.
Proof.
  intros w. destruct (session w) as [s |] eqn:Hs.
  - rewrite (saveSession_eq w s Hs). cbv zeta. destruct_if.
    + exists []. rewrite app_nil_r. auto.
    + exists [closed_session (w_clock w (w_ticks w)) s]. split; [reflexivity |].
      constructor; [| constructor]. intros He.
      rewrite He, map_size_empty in *. discriminate.
  - exists []. rewrite app_nil_r. unfold_engine. cbn. rewrite Hs. auto.
Qed.

#[local] Hint Resolve saves_ret saves_saveSession : saves.
#[local] Hint Extern 1 (saves_nonempty _) =>
  apply saves_local; intros; unfold_engine; cbn; repeat case_match; reflexivity : saves.

Ltac saves_step :=
  first
    [ apply saves_saveSession
    | apply saves_bind; intros
    | match goal with
      | |- saves_nonempty (if ?b then _ else _) => destruct b
      | |- saves_nonempty (match ?x with _ => _ end) => destruct x
      end
    | solve [eauto with saves] ].

Lemma saves_run_op (o : Op) : saves_nonempty (run_op o).
Proof.
  destruct o; cbn [run_op];
    unfold FocusGained, OpenFile, SendHeartbeat, EndSession, CheckHeartbeat,
      heartbeat_stale;
    repeat saves_step.
Qed.

(** C5: whatever operation runs, on any engine state, every session it
    hands to [storage.Save] has a non-empty [Files] map; a session whose
    merged map is empty is dropped without a call to the store. *)
Theorem run_op_saves_only_nonempty (o : Op) (w : World) :
  exists new,
    w_saved (snd (run_op o w)) = w_saved w ++ new
    /\ Forall (fun s => Files s <> ∅) new.
Proof. apply saves_run_op. Qed.

(** ** The [Files] map is empty until [saveSession] fills it *)

Lemma keeps_bind {A B} (m : M A) (k : A -> M B) :
  keeps_files_empty m -> (forall a, keeps_files_empty (k a)) ->
  keeps_files_empty (bind m k).
Proof.
  intros Hm Hk w Hw. unfold bind.
  specialize (Hm w Hw).
  destruct (m w) as [[a | |] w1]; cbn in Hm |- *; auto.
  apply Hk, Hm.
Qed.

Lemma keeps_local {A} (m : M A) :
  (forall w, session (snd (m w)) = session w) -> keeps_files_empty m.
Proof. intros H w Hw s Hs. apply Hw. rewrite <- H. exact Hs. Qed.

Lemma keeps_saveSession : keeps_files_empty saveSession.
Proof.
  intros w Hw s. pose proof (saveSession_idle w) as (_ & _ & ->). discriminate.
Qed.

Lemma keeps_createSession os editor : keeps_files_empty (createSession os editor).
Proof.
  intros w Hw s. rewrite createSession_eq. cbn. intros [= <-]. reflexivity.
Qed.

Lemma archive_Files (t : Z) (s : Session) : Files (archive t s) = Files s.
Proof. unfold archive. destruct (CurrentFile s); reflexivity. Qed.

Lemma keeps_updateCurrentFile path : keeps_files_empty (updateCurrentFile path).
Proof.
  intros w Hw. destruct (session w) as [s |] eqn:Hs.
  - rewrite (updateCurrentFile_eq path w s Hs). cbv zeta.
    destruct (w_reader w path); cbn; [| exact Hw].
    intros s' [= <-]. cbn. rewrite archive_Files. apply Hw, Hs.
  - unfold_engine. cbn. destruct (w_reader w path); cbn; [| exact Hw].
    rewrite Hs. exact Hw.
Qed.

Create HintDb keeps.

#[local] Hint Resolve keeps_saveSession keeps_createSession
  keeps_updateCurrentFile : keeps.
#[local] Hint Extern 1 (keeps_files_empty _) =>
  apply keeps_local; intros; unfold_engine; cbn; repeat case_match; reflexivity : keeps.

Ltac keeps_step :=
  first
    [ apply keeps_saveSession
    | apply keeps_createSession
    | apply keeps_updateCurrentFile
    | apply keeps_bind; intros
    | match goal with
      | |- keeps_files_empty (if ?b then _ else _) => destruct b
      | |- keeps_files_empty (match ?x with _ => _ end) => destruct x
      end
    | solve [eauto with keeps] ].

Lemma keeps_run_op (o : Op) : keeps_files_empty (run_op o).
Proof.
  destruct o; cbn [run_op];
    unfold FocusGained, OpenFile, SendHeartbeat, EndSession, CheckHeartbeat,
      heartbeat_stale;
    repeat keeps_step.
Qed.

Lemma reachable_files_empty (w : World) : reachable w -> files_empty w.
Proof.
  induction 1 as [clk wall rd st | w o w' _ IH Hrun].
  - intros s Hs. discriminate.
  - pose proof (keeps_run_op o w IH) as H. rewrite Hrun in H. exact H.
Qed.

(** ** C2: merged durations *)

Lemma wrap64_inner (a b c : Z) : wrap64 (a + wrap64 b + c) = wrap64 (a + b + c).
Proof.
  replace (a + wrap64 b + c) with (wrap64 b + (a + c)) by lia.
  rewrite wrap64_add_l. f_equal. lia.
Qed.

Lemma set_DurationMs_twice (f : File) (a b : Z) :
  set_DurationMs (set_DurationMs f a) b = set_DurationMs f b.
Proof. reflexivity. Qed.

(** The merge loop, one path at a time: a path absent from the intervals
    keeps its entry; otherwise its entry is the existing one, or else the
    first interval for it, with the durations of the intervals added. *)
Lemma merge_lookup (l : list File) (acc : gmap string File) (p : string) :
  foldl merge_file acc l !! p
  = match acc !! p, filter (fun g => Path g = p) l with
    | o, [] => o
    | None, (g :: _) as gs => Some (set_DurationMs g (wrap64 (zsum (durations gs))))
    | Some cur, gs =>
        Some (set_DurationMs cur (wrap64 (DurationMs cur + zsum (durations gs))))
    end.
Proof.
  revert acc. induction l as [| f l IH]; intros acc; cbn [foldl].
  - rewrite filter_nil. destruct (acc !! p); reflexivity.
  - rewrite IH. rewrite filter_cons.
    unfold merge_file.
    destruct (decide (Path f = p)) as [<- | Hne].
    + destruct (acc !! Path f) as [cur |] eqn:Ha;
        rewrite lookup_insert_eq;
        destruct (filter (fun g => Path g = Path f) l) as [| g gs];
        cbn [durations map zsum foldr DurationMs set_DurationMs];
        rewrite ?set_DurationMs_twice, ?wrap64_add_l, ?wrap64_inner, ?wrap64_add_r;
        do 3 f_equal; lia.
    + destruct (acc !! Path f); rewrite lookup_insert_ne by exact Hne; reflexivity.
Qed.

Lemma closed_session_Files (t : Z) (s : Session) :
  Files (closed_session t s) = foldl merge_file (Files s) (intervals_at t s).
Proof.
  unfold closed_session, merge_files, archive, intervals_at.
  destruct (CurrentFile s) as [f |]; cbn.
  - rewrite length_app. cbn [length]. rewrite Nat.add_1_r. reflexivity.
  - rewrite app_nil_r. destruct (OpenFiles s); reflexivity.
Qed.

(** C2: when [saveSession] hands a session to the store, for every path
    [p] the entry [Files[p]] is the first archived interval for [p] (the
    current file included, closed at the save time) with [DurationMs] the
    [int64] sum of [ClosedAt - OpenedAt] over all intervals for [p], however
    often [p] was reopened; paths without an interval have no entry. *)
Theorem saveSession_merged_durations (w : World) (sess s' : Session) (p : string)
    (Hr : reachable w) (Hs : session w = Some sess)
    (Hsaved : w_saved (snd (saveSession w)) = w_saved w ++ [s']) :
  Files s' !! p
  = match filter (fun g => Path g = p) (intervals_at (w_clock w (w_ticks w)) sess) with
    | [] => None
    | (g :: _) as gs => Some (set_DurationMs g (wrap64 (zsum (durations gs))))
    end.
Proof.
  rewrite (saveSession_eq w sess Hs) in Hsaved. cbv zeta in Hsaved.
  destruct (size (Files (closed_session (w_clock w (w_ticks w)) sess)) <? 1)%nat;
    cbn [snd w_saved idle tick set_session set_activeClientId record_save] in Hsaved.
  - apply (f_equal length) in Hsaved. rewrite length_app in Hsaved.
    cbn [length] in Hsaved. lia.
  - apply app_inv_head in Hsaved. injection Hsaved as <-.
    rewrite closed_session_Files, (reachable_files_empty w Hr sess Hs),
      merge_lookup, lookup_empty.
    destruct (filter _ _); reflexivity.
Qed.

Lemma reachable_w_scn : reachable w_scn.
Proof.
  apply (reach_step w_scn2 (OpOpenFile evA)); [| vm_compute; reflexivity].
  apply (reach_step w_scn1 (OpOpenFile evA_b)); [| vm_compute; reflexivity].
  apply (reach_step w_scn0 (OpOpenFile evA));
    [apply reach_init | vm_compute; reflexivity].
Qed.

Lemma saveSession_merged_durations_witness :
  session w_scn = Some sess_scn
  /\ w_saved (snd (saveSession w_scn)) = w_saved w_scn ++ [saved_scn]
  /\ Files saved_scn !! "/repo/a.go"
     = match filter (fun g => Path g = "/repo/a.go")
               (intervals_at (w_clock w_scn (w_ticks w_scn)) sess_scn) with
       | [] => None
       | (g :: _) as gs => Some (set_DurationMs g (wrap64 (zsum (durations gs))))
       end
  /\ option_map DurationMs (Files saved_scn !! "/repo/a.go") = Some 1500.
Proof.
  split; [vm_compute; reflexivity |].
  split; [vm_compute; reflexivity |].
  split.
  - apply saveSession_merged_durations;
      [exact reachable_w_scn | vm_compute; reflexivity | vm_compute; reflexivity].
  - vm_compute. reflexivity.
Defined.
Module DomainFacts.
Import Domain.

Lemma foldl_perm {A B} (f : A -> B -> A)
    (Hc : forall a x y, f (f a x) y = f (f a y) x) (l1 l2 : list B) :
  Permutation l1 l2 -> forall a, foldl f a l1 = foldl f a l2.
Proof.
  induction 1 as [| x l l' _ IH | x y l | l l' l'' _ IH1 _ IH2]; intros a; cbn.
  - reflexivity.
  - apply IH.
  - rewrite Hc. reflexivity.
  - rewrite IH1. apply IH2.
Qed.

Lemma zsum_perm (l1 l2 : list Z) : Permutation l1 l2 -> zsum l1 = zsum l2.
Proof.
  unfold zsum. induction 1; cbn; lia.
Qed.

Lemma total_time_from (ss : list Session) (a : Z) :
  foldl (fun acc s => wrap64 (acc + SDurationMs s)) (wrap64 a) ss
  = wrap64 (a + zsum (map SDurationMs ss)).
Proof.
  revert a. induction ss as [| s ss IH]; intros a; cbn.
  - f_equal. lia.
  - rewrite wrap64_add_l, IH. f_equal. unfold zsum. lia.
Qed.

Lemma total_time_sum (ss : list Session) :
  total_time ss = wrap64 (zsum (map SDurationMs ss)).
Proof.
  unfold total_time. rewrite <- (Z.add_0_l (zsum _)), <- total_time_from.
  reflexivity.
Qed.

Lemma add_repo_comm (m : gmap string Z) (f g : File) :
  add_repo (add_repo m f) g = add_repo (add_repo m g) f.
Proof.
  unfold add_repo.
  destruct (decide (Repository f = Repository g)) as [E | E].
  - rewrite E, !lookup_insert_eq, !insert_insert_eq. cbn [default].
    unfold id. rewrite !wrap64_add_l.
    f_equal. f_equal. lia.
  - rewrite !lookup_insert_ne by congruence.
    apply insert_insert_ne. congruence.
Qed.

Lemma sessionRepositories_perm (l1 l2 : list Session) :
  Permutation l1 l2 -> sessionRepositories l1 = sessionRepositories l2.
Proof.
  intros Hp. unfold sessionRepositories. apply foldl_perm; [| exact Hp].
  intros m s t. rewrite <- !foldl_app.
  apply foldl_perm; [apply add_repo_comm | apply Permutation_app_comm].
Qed.

Lemma aggregate_bucket_perm (fmt : Z -> string) (d : Z) (ss1 ss2 : list Session) :
  Permutation ss1 ss2 -> aggregate_bucket fmt (d, ss1) = aggregate_bucket fmt (d, ss2).
Proof.
  intros Hp. cbn. rewrite !total_time_sum, (sessionRepositories_perm ss1 ss2 Hp).
  rewrite (zsum_perm (map SDurationMs ss1) (map SDurationMs ss2))
    by (apply Permutation_map; exact Hp).
  reflexivity.
Qed.

Lemma groupByDay_fold (l : list Session) (acc : gmap Z (list Session)) (d : Z) :
  foldl (fun buckets s =>
           let d := truncate_Day (StartedAt s) in
           <[d := default [] (buckets !! d) ++ [s]]> buckets) acc l !! d
  = match day_bucket l d with
    | [] => acc !! d
    | ss => Some (default [] (acc !! d) ++ ss)
    end.
Proof.
  revert acc. unfold day_bucket.
  induction l as [| s l IH]; intros acc; cbn [foldl]; [reflexivity |].
  rewrite IH, filter_cons.
  destruct (decide (truncate_Day (StartedAt s) = d)) as [E | E].
  - rewrite E, lookup_insert_eq. cbn [default].
    destruct (filter _ l); [reflexivity |].
    unfold id. rewrite <- app_assoc. reflexivity.
  - rewrite lookup_insert_ne by exact E. reflexivity.
Qed.

Lemma groupByDay_lookup (l : list Session) (d : Z) (ss : list Session) :
  groupByDay l !! d = Some ss <-> ss = day_bucket l d /\ ss <> [].
Proof.
  unfold groupByDay. rewrite groupByDay_fold, lookup_empty. cbn [default].
  destruct (day_bucket l d) as [| s l'].
  - split; [discriminate | intros [-> H]; congruence].
  - split; [intros [= <-]; split; [reflexivity | discriminate] | intros [-> _]; reflexivity].
Qed.

Lemma in_Aggregate (fmt : Z -> string) (l : list Session) (a : AggregatedSession) :
  In a (Aggregate fmt l)
  <-> exists d ss, groupByDay l !! d = Some ss /\ a = aggregate_bucket fmt (d, ss).
Proof.
  unfold Aggregate. rewrite in_map_iff. split.
  - intros [[d ss] [<- Hin]]. exists d, ss. split; [| reflexivity].
    apply elem_of_map_to_list, list_elem_of_In. exact Hin.
  - intros (d & ss & Hl & ->). exists (d, ss). split; [reflexivity |].
    apply list_elem_of_In, elem_of_map_to_list. exact Hl.
Qed.

Lemma fmap_map_list {A B} (f : A -> B) (l : list A) : f <$> l = map f l.
Proof. induction l as [| x l IH]; cbn; [reflexivity | rewrite <- IH; reflexivity]. Qed.

Lemma Aggregate_dates (fmt : Z -> string) (l : list Session) :
  map Date (Aggregate fmt l) = (map_to_list (groupByDay l)).*1.
Proof.
  unfold Aggregate. rewrite map_map, (fmap_map_list fst (map_to_list (groupByDay l))).
  apply map_ext. intros [d ss]. reflexivity.
Qed.

Lemma truncate_Day_bounds (t : Z) :
  truncate_Day t mod day_ms = 0 /\ truncate_Day t <= t < truncate_Day t + day_ms.
Proof.
  unfold truncate_Day, day_ms. split.
  - rewrite Zminus_mod, Z.mod_mod by lia. rewrite Z.sub_diag. reflexivity.
  - pose proof (Z.mod_pos_bound t (24 * 60 * 60 * 1000)). lia.
Qed.

(** C7: [Aggregate] puts each session in the bucket of the day its
    [StartedAt] falls in ([truncate_Day], a multiple of [day_ms] within one
    day at or before it), one bucket per day; a bucket's [TotalTimeMs] is
    the [int64] sum of the [DurationMs] of the sessions starting that day
    (each session counted whole, in one bucket), and its [Repositories] is
    [sessionRepositories] of the same sessions. *)
Theorem Aggregate_buckets_by_start_day (fmt : Z -> string) (l : list Session) :
  (forall a, In a (Aggregate fmt l) ->
     APeriod a = Day
     /\ Date a mod day_ms = 0
     /\ day_bucket l (Date a) <> []
     /\ TotalTimeMs a = wrap64 (zsum (map SDurationMs (day_bucket l (Date a))))
     /\ Repositories a = sessionRepositories (day_bucket l (Date a)))
  /\ (forall s, In s l ->
       exists a, In a (Aggregate fmt l)
         /\ Date a = truncate_Day (StartedAt s)
         /\ Date a <= StartedAt s < Date a + day_ms
         /\ In s (day_bucket l (Date a)))
  /\ NoDup (map Date (Aggregate fmt l)).
Proof.
  split; [| split].
  - intros a Ha. apply in_Aggregate in Ha as (d & ss & Hl & ->).
    apply groupByDay_lookup in Hl as [-> Hne]. cbn.
    rewrite total_time_sum.
    split; [reflexivity |]. split; [| split; [exact Hne | split; reflexivity]].
    destruct l as [| s0 l0]; [cbn in Hne; congruence |].
    unfold day_bucket in Hne.
    destruct (filter _ _) as [| s ss] eqn:Ef; [congruence |].
    assert (Hs : s ∈ filter (fun s => truncate_Day (StartedAt s) = d) (s0 :: l0))
      by (rewrite Ef; left).
    apply list_elem_of_filter in Hs as [<- _].
    apply truncate_Day_bounds.
  - intros s Hs. set (d := truncate_Day (StartedAt s)).
    assert (Hin : In s (day_bucket l d)).
    { apply list_elem_of_In, list_elem_of_filter. split; [reflexivity |].
      apply list_elem_of_In. exact Hs. }
    exists (aggregate_bucket fmt (d, day_bucket l d)). split; [| split; [reflexivity |]].
    + apply in_Aggregate. exists d, (day_bucket l d). split; [| reflexivity].
      apply groupByDay_lookup. split; [reflexivity |].
      intros E. rewrite E in Hin. contradiction.
    + split; [apply truncate_Day_bounds | exact Hin].
  - rewrite Aggregate_dates. apply NoDup_fst_map_to_list.
Qed.

Lemma Aggregate_incl (fmt : Z -> string) (l1 l2 : list Session) (a : AggregatedSession) :
  Permutation l1 l2 -> In a (Aggregate fmt l1) -> In a (Aggregate fmt l2).
Proof.
  intros Hp Ha. apply in_Aggregate in Ha as (d & ss & Hl & ->).
  apply groupByDay_lookup in Hl as [-> Hne].
  assert (Hb : Permutation (day_bucket l1 d) (day_bucket l2 d))
    by (unfold day_bucket; apply filter_Permutation; exact Hp).
  apply in_Aggregate. exists d, (day_bucket l2 d). split.
  - apply groupByDay_lookup. split; [reflexivity |].
    intros E. rewrite E in Hb. apply Permutation_sym, Permutation_nil in Hb. contradiction.
  - apply aggregate_bucket_perm. exact Hb.
Qed.

(** C8: permuting the input sessions permutes the output of [Aggregate]:
    the same aggregated sessions, keyed by distinct dates. *)
Theorem Aggregate_permutation_invariant (fmt : Z -> string) (l1 l2 : list Session) :
  Permutation l1 l2 -> Permutation (Aggregate fmt l1) (Aggregate fmt l2).
Proof.
  intros Hp. apply NoDup_Permutation.
  - apply (NoDup_fmap_1 Date). rewrite fmap_map_list, Aggregate_dates.
    apply NoDup_fst_map_to_list.
  - apply (NoDup_fmap_1 Date). rewrite fmap_map_list, Aggregate_dates.
    apply NoDup_fst_map_to_list.
  - intros a. rewrite !list_elem_of_In. split; apply Aggregate_incl;
      [exact Hp | apply Permutation_sym; exact Hp].
Qed.

Lemma Aggregate_permutation_invariant_witness :
  Permutation [mkSession 0 10 [mkFile "r" 10]; mkSession day_ms 20 [mkFile "r" 20]]
              [mkSession day_ms 20 [mkFile "r" 20]; mkSession 0 10 [mkFile "r" 10]]
  /\ Permutation
       (Aggregate (fun _ => "") [mkSession 0 10 [mkFile "r" 10];
                                 mkSession day_ms 20 [mkFile "r" 20]])
       (Aggregate (fun _ => "") [mkSession day_ms 20 [mkFile "r" 20];
                                 mkSession 0 10 [mkFile "r" 10]]).
Proof.
  split; [apply perm_swap |].
  apply Aggregate_permutation_invariant. apply perm_swap.
Defined.

End DomainFacts.

Module LockingFacts.
Import Locking.

(** C9: not every operation holds the mutex for its whole run.  The
    handlers' programs access [app] only under the mutex, but
    [CheckHeartbeat] reads [app.session] and [app.lastHeartbeat] before
    [Lock]; with [FocusGained] holding the mutex, the schedule
    [FocusGained: Lock], [CheckHeartbeat: log], [CheckHeartbeat: read]
    runs and the read happens while the other goroutine owns the mutex. *)
Theorem CheckHeartbeat_reads_outside_lock :
  guarded CheckHeartbeat_prog = false
  /\ guarded FocusGained_prog = true
  /\ guarded OpenFile_prog = true
  /\ guarded SendHeartbeat_prog = true
  /\ guarded EndSession_prog = true
  /\ exists tr, run (mkConfig None [FocusGained_prog; CheckHeartbeat_prog]) [0%nat; 1%nat; 1%nat]
                = Some tr
          /\ interleaved tr.
Proof.
  split; [reflexivity |]. split; [reflexivity |]. split; [reflexivity |].
  split; [reflexivity |]. split; [reflexivity |].
  eexists. split; [reflexivity |].
  exists 1%nat, 0%nat. split; [cbn; tauto | discriminate].
Qed.

End LockingFacts.

(** * Further properties of the engine *)
Module EngineFacts.

Ltac unfold_local :=
  unfold FocusGained, OpenFile, SendHeartbeat, EndSession,
    CheckHeartbeat, heartbeat_stale, reset,
    createSession, updateCurrentFile, archiveCurrentFile, modify_session,
    PrintFatal, reader_Read, time_Now, GetTime,
    halt_fatal, nil_deref, modify, get, bind, ret, session_is_nil in *.

(** [saveSession] returns normally into an idle engine. *)
Ltac saveSession_cases w :=
  let H := fresh "Hsave" in
  let w2 := fresh "w" in
  pose proof (saveSession_idle w) as H;
  destruct (saveSession w) as [[[] | |] w2]; cbn in H; destruct H as (? & ? & ?);
    try discriminate.

Lemma OpenFile_shape (event : Event) (w : World) :
  fst (OpenFile event w) = Normal None
  /\ session (snd (OpenFile event w)) <> None
  /\ activeClientId (snd (OpenFile event w))
     = (if session_is_nil w then Id event else activeClientId w)
  /\ w_saved (snd (OpenFile event w)) = w_saved w.
Proof.
  unfold_local. cbn -[archive].
  destruct (session w) as [s |] eqn:Hs; cbn -[archive];
    destruct (w_reader w (EPath event)); cbn -[archive]; rewrite ?Hs; cbn -[archive];
    repeat split; congruence.
Qed.

Lemma SendHeartbeat_shape (event : Event) (w : World) :
  fst (SendHeartbeat event w) = Normal None
  /\ session (snd (SendHeartbeat event w)) <> None
  /\ activeClientId (snd (SendHeartbeat event w))
     = (if session_is_nil w then Id event else activeClientId w)
  /\ w_saved (snd (SendHeartbeat event w)) = w_saved w.
Proof.
  unfold_local. cbn -[archive].
  destruct (session w) as [s |] eqn:Hs; cbn -[archive];
    [| destruct (w_reader w (EPath event))]; cbn -[archive]; rewrite ?Hs; cbn -[archive];
    repeat split; congruence.
Qed.

Lemma FocusGained_normal (event : Event) (w : World) :
  fst (FocusGained event w) = Normal None.
Proof.
  unfold_local. cbn -[archive saveSession String.eqb].
  destruct (String.eqb _ _); [reflexivity |].
  destruct (session w); cbn -[archive saveSession].
  - saveSession_cases (set_lastHeartbeat (tick w) (w_clock w (w_ticks w))).
    cbn -[archive]. destruct (w_reader _ (EPath event)); reflexivity.
  - destruct (w_reader w (EPath event)); reflexivity.
Qed.

Lemma CheckHeartbeat_normal (w : World) : fst (CheckHeartbeat w) = Normal tt.
Proof.
  unfold_local. cbn -[saveSession wrap64].
  destruct (session w); [| reflexivity]. cbn -[saveSession wrap64].
  destruct (_ <? _); [| reflexivity].
  apply saveSession_idle.
Qed.

Lemma EndSession_cases (event : Event) (w : World) :
  if (1 <? String.length (activeClientId w))%nat
       && negb (String.eqb (activeClientId w) (Id event))
  then EndSession event w = (Fatal, w)
  else fst (EndSession event w) = Normal None.
Proof.
  unfold EndSession, PrintFatal, halt_fatal, get, bind, ret.
  cbn -[saveSession Nat.ltb String.eqb].
  destruct (_ && _); [reflexivity |]. cbn -[saveSession].
  destruct (_ && _); [reflexivity |].
  saveSession_cases w. reflexivity.
Qed.

(** X1: every operation returns normally, except [EndSession] from a client
    other than an active one with a longer-than-one-character id, which
    ends the process ([PrintFatal]) before changing anything. *)
Theorem run_op_normal_or_foreign_EndSession (o : Op) (w : World) :
  fst (run_op o w) = Normal tt
  \/ (exists e, o = OpEndSession e
        /\ (1 < String.length (activeClientId w))%nat
        /\ activeClientId w <> Id e
        /\ run_op o w = (Fatal, w)).
Proof.
  destruct o as [e | e | e | e |]; cbn [run_op]; [unfold bind ..|].
  - pose proof (FocusGained_normal e w) as H.
    destruct (FocusGained e w) as [[] w']; cbn in H |- *; try discriminate. auto.
  - pose proof (proj1 (OpenFile_shape e w)) as H.
    destruct (OpenFile e w) as [[] w']; cbn in H |- *; try discriminate. auto.
  - pose proof (proj1 (SendHeartbeat_shape e w)) as H.
    destruct (SendHeartbeat e w) as [[] w']; cbn in H |- *; try discriminate. auto.
  - pose proof (EndSession_cases e w) as H. revert H.
    destruct ((1 <? String.length (activeClientId w))%nat
              && negb (String.eqb (activeClientId w) (Id e))) eqn:G; intros H.
    + right. exists e.
      apply andb_true_iff in G as [G1 G2]. apply Nat.ltb_lt in G1.
      apply negb_true_iff, String.eqb_neq in G2.
      rewrite H. auto.
    + left. destruct (EndSession e w) as [o w'] eqn:Ee. cbn in H. subst o. reflexivity.
  - left. apply CheckHeartbeat_normal.
Qed.

(** X2: [OpenFile] and [SendHeartbeat] return [nil], never hand a session to
    the store, and always leave a session; they set the active client to
    the event's id only when there was no session. *)
Theorem OpenFile_SendHeartbeat_keep_session (event : Event) (w : World) :
  (fst (OpenFile event w) = Normal None
   /\ session (snd (OpenFile event w)) <> None
   /\ activeClientId (snd (OpenFile event w))
      = (if session_is_nil w then Id event else activeClientId w)
   /\ w_saved (snd (OpenFile event w)) = w_saved w)
  /\ (fst (SendHeartbeat event w) = Normal None
   /\ session (snd (SendHeartbeat event w)) <> None
   /\ activeClientId (snd (SendHeartbeat event w))
      = (if session_is_nil w then Id event else activeClientId w)
   /\ w_saved (snd (SendHeartbeat event w)) = w_saved w).
Proof. split; [apply OpenFile_shape | apply SendHeartbeat_shape]. Qed.

(** X3: [OpenFile] on an idle engine: the heartbeat is the first clock
    reading, the event's client becomes active, a session starts at the
    wall clock with the file as current file, opened at the next reading. *)
Theorem OpenFile_idle_starts_session (event : Event) (w : World) (md : FileMetadata)
    (Hidle : session w = None) (Hrd : w_reader w (EPath event) = Some md) :
  OpenFile event w
  = (Normal None,
     set_session
       (tick (tick (set_activeClientId
                      (set_lastHeartbeat (tick w) (w_clock w (w_ticks w))) (Id event))))
       (Some (mkSession (w_wall w (S (w_ticks w))) 0 0 (EOS event) (EEditor event)
                (Some (mkFile (Filename md) (RepositoryName md) (MFiletype md)
                         (EPath event) (w_clock w (S (S (w_ticks w)))) 0 0))
                [] ∅))).
Proof.
  unfold_local. cbn -[archive]. rewrite Hidle. cbn -[archive]. rewrite Hrd.
  reflexivity.
Qed.

Lemma OpenFile_idle_starts_session_witness :
  session (test_world 5 7) = None
  /\ w_reader (test_world 5 7) (EPath evA) = Some md0
  /\ OpenFile evA (test_world 5 7)
     = (Normal None,
        set_session
          (tick (tick (set_activeClientId
                         (set_lastHeartbeat (tick (test_world 5 7)) 5) "A")))
          (Some (mkSession 7 0 0 "linux" "nvim"
                   (Some (mkFile "a.go" "repo" "go" "/repo/a.go" 5 0 0)) [] ∅))).
Proof.
  split; [reflexivity |]. split; [reflexivity |].
  exact (OpenFile_idle_starts_session evA (test_world 5 7) md0 eq_refl eq_refl).
Defined.

(** X4: [OpenFile] with a session: the current file is archived (closed at
    the open time of the new one, appended to [OpenFiles]) and replaced;
    the active client stays, even if the event comes from another client. *)
Theorem OpenFile_active_switches_file (event : Event) (w : World) (s : Session)
    (md : FileMetadata)
    (Hs : session w = Some s) (Hrd : w_reader w (EPath event) = Some md) :
  let t := w_clock w (S (w_ticks w)) in
  exists s',
    OpenFile event w
    = (Normal None,
       set_session (tick (set_lastHeartbeat (tick w) (w_clock w (w_ticks w)))) (Some s'))
    /\ OpenFiles s' = intervals_at t s
    /\ CurrentFile s'
       = Some (mkFile (Filename md) (RepositoryName md) (MFiletype md) (EPath event) t 0 0)
    /\ StartedAt s' = StartedAt s /\ Files s' = Files s.
Proof.
  cbv zeta. unfold_local. cbn -[archive]. rewrite Hs. cbn -[archive]. rewrite Hrd.
  cbn -[archive]. rewrite Hs. cbn -[archive].
  eexists. split; [reflexivity |].
  unfold archive, intervals_at. destruct (CurrentFile s); cbn;
    rewrite ?app_nil_r; repeat split.
Qed.

Lemma OpenFile_active_switches_file_witness :
  session w_A = Some (match session w_A with Some s => s | None => sess0 end)
  /\ w_reader w_A (EPath evB) = Some md0
  /\ exists s',
       OpenFile evB w_A
       = (Normal None,
          set_session (tick (set_lastHeartbeat (tick w_A) (w_clock w_A (w_ticks w_A))))
            (Some s'))
       /\ OpenFiles s' = intervals_at (w_clock w_A (S (w_ticks w_A)))
                           (match session w_A with Some s => s | None => sess0 end)
       /\ CurrentFile s'
          = Some (mkFile "a.go" "repo" "go" "/repo/a.go" (w_clock w_A (S (w_ticks w_A))) 0 0)
       /\ StartedAt s' = StartedAt (match session w_A with Some s => s | None => sess0 end)
       /\ Files s' = Files (match session w_A with Some s => s | None => sess0 end).
Proof.
  split; [reflexivity |]. split; [reflexivity |].
  exact (OpenFile_active_switches_file evB w_A _ md0 eq_refl eq_refl).
Defined.

(** X5: [OpenFile] on a path the reader cannot resolve only refreshes the
    heartbeat: the session and its current file are unchanged. *)
Theorem OpenFile_unreadable_path (event : Event) (w : World) (s : Session)
    (Hs : session w = Some s) (Hrd : w_reader w (EPath event) = None) :
  OpenFile event w
  = (Normal None, tick (set_lastHeartbeat (tick w) (w_clock w (w_ticks w)))).
Proof.
  unfold_local. cbn -[archive]. rewrite Hs. cbn -[archive]. rewrite Hrd. reflexivity.
Qed.

Lemma OpenFile_unreadable_path_witness :
  OpenFile evA w_noread = (Normal None, tick (set_lastHeartbeat (tick w_noread) 3)).
Proof.
  exact (OpenFile_unreadable_path evA w_noread sess0 eq_refl eq_refl).
Defined.

(** X6: [SendHeartbeat] with a session only stores the clock reading in
    [lastHeartbeat], whichever client sends it. *)
Theorem SendHeartbeat_active_refreshes (event : Event) (w : World) (s : Session)
    (Hs : session w = Some s) :
  SendHeartbeat event w
  = (Normal None, set_lastHeartbeat (tick w) (w_clock w (w_ticks w))).
Proof. unfold_local. cbn. rewrite Hs. reflexivity. Qed.

Lemma SendHeartbeat_active_refreshes_witness :
  SendHeartbeat evB (w_active 42) = (Normal None, set_lastHeartbeat (tick (w_active 42)) 42).
Proof.
  exact (SendHeartbeat_active_refreshes evB (w_active 42) sess0 eq_refl).
Defined.

(** X7: [SendHeartbeat] on an idle engine starts a session for the event's
    client, like [OpenFile], and reads the heartbeat after the file's open
    time. *)
Theorem SendHeartbeat_idle_restarts (event : Event) (w : World) (md : FileMetadata)
    (Hidle : session w = None) (Hrd : w_reader w (EPath event) = Some md) :
  fst (SendHeartbeat event w) = Normal None
  /\ activeClientId (snd (SendHeartbeat event w)) = Id event
  /\ lastHeartbeat (snd (SendHeartbeat event w)) = w_clock w (S (S (w_ticks w)))
  /\ session (snd (SendHeartbeat event w))
     = Some (mkSession (w_wall w (w_ticks w)) 0 0 (EOS event) (EEditor event)
               (Some (mkFile (Filename md) (RepositoryName md) (MFiletype md)
                        (EPath event) (w_clock w (S (w_ticks w))) 0 0))
               [] ∅)
  /\ w_saved (snd (SendHeartbeat event w)) = w_saved w.
Proof.
  unfold_local. cbn -[archive]. rewrite Hidle. cbn -[archive]. rewrite Hrd.
  cbn. repeat split.
Qed.

Lemma SendHeartbeat_idle_restarts_witness :
  fst (SendHeartbeat evA (test_world 5 7)) = Normal None
  /\ activeClientId (snd (SendHeartbeat evA (test_world 5 7))) = "A"
  /\ lastHeartbeat (snd (SendHeartbeat evA (test_world 5 7))) = 5
  /\ session (snd (SendHeartbeat evA (test_world 5 7)))
     = Some (mkSession 7 0 0 "linux" "nvim"
               (Some (mkFile "a.go" "repo" "go" "/repo/a.go" 5 0 0)) [] ∅)
  /\ w_saved (snd (SendHeartbeat evA (test_world 5 7))) = [].
Proof.
  exact (SendHeartbeat_idle_restarts evA (test_world 5 7) md0 eq_refl eq_refl).
Defined.

(** X8: [EndSession] on an idle engine returns [nil] and changes nothing. *)
Theorem EndSession_idle_noop (event : Event) (w : World)
    (Hidle : session w = None) (Ha : activeClientId w = "") :
  EndSession event w = (Normal None, w).
Proof.
  unfold EndSession, session_is_nil, PrintFatal, get, bind, ret.
  cbn -[String.eqb Nat.ltb saveSession]. rewrite Ha. cbn -[saveSession]. rewrite Hidle, Ha.
  reflexivity.
Qed.

Lemma EndSession_idle_noop_witness :
  EndSession evB (test_world 5 7) = (Normal None, test_world 5 7).
Proof.
  exact (EndSession_idle_noop evB (test_world 5 7) eq_refl eq_refl).
Defined.

(** X9: [CheckHeartbeat] without a session changes nothing and does not
    read the clock. *)
Theorem CheckHeartbeat_idle_noop (w : World) (Hidle : session w = None) :
  CheckHeartbeat w = (Normal tt, w).
Proof. unfold_local. rewrite Hidle. reflexivity. Qed.

Lemma CheckHeartbeat_idle_noop_witness :
  CheckHeartbeat (test_world 5 7) = (Normal tt, test_world 5 7).
Proof.
  exact (CheckHeartbeat_idle_noop (test_world 5 7) eq_refl).
Defined.

(** X10: [FocusGained] of another client while a session is open: the old
    session goes through [saveSession], then the new client gets a fresh
    session (wall-clock start, the event's file current). *)
Theorem FocusGained_switches_client (event : Event) (w : World) (s : Session)
    (Hs : session w = Some s) (Hother : activeClientId w <> Id event) :
  let w1 := set_lastHeartbeat (tick w) (w_clock w (w_ticks w)) in
  exists w2,
    saveSession w1 = (Normal tt, w2)
    /\ FocusGained event w
       = (do _ <- createSession (EOS event) (EEditor event);
          do _ <- updateCurrentFile (EPath event);
          ret (@None string)) (set_activeClientId w2 (Id event))
    /\ session w2 = None
    /\ w_saved (snd ((do _ <- createSession (EOS event) (EEditor event);
                      do _ <- updateCurrentFile (EPath event);
                      ret (@None string)) (set_activeClientId w2 (Id event))))
       = w_saved w2.
Proof.
  cbv zeta. apply String.eqb_neq in Hother.
  unfold FocusGained at 1, GetTime, modify, get, bind.
  cbn -[saveSession createSession updateCurrentFile String.eqb].
  rewrite Hother, Hs.
  saveSession_cases (set_lastHeartbeat (tick w) (w_clock w (w_ticks w))).
  eexists. split; [reflexivity |]. split; [reflexivity |]. split; [assumption |].
  unfold_local. cbn -[archive].
  match goal with
  | |- context [w_reader ?x (EPath event)] => destruct (w_reader x (EPath event))
  end; reflexivity.
Qed.

Lemma FocusGained_switches_client_witness :
  let w1 := set_lastHeartbeat (tick w_A) (w_clock w_A (w_ticks w_A)) in
  exists w2,
    saveSession w1 = (Normal tt, w2)
    /\ FocusGained evB w_A
       = (do _ <- createSession (EOS evB) (EEditor evB);
          do _ <- updateCurrentFile (EPath evB);
          ret (@None string)) (set_activeClientId w2 (Id evB))
    /\ session w2 = None
    /\ w_saved (snd ((do _ <- createSession (EOS evB) (EEditor evB);
                      do _ <- updateCurrentFile (EPath evB);
                      ret (@None string)) (set_activeClientId w2 (Id evB))))
       = w_saved w2.
Proof.
  exact (FocusGained_switches_client evB w_A
           (match session w_A with Some s => s | None => sess0 end)
           ltac:(vm_compute; reflexivity) ltac:(vm_compute; congruence)).
Defined.

End EngineFacts.

Module EngineInvariant.

Lemma inv_bind {A B} (m : M A) (k : A -> M B) :
  keeps_inv m -> (forall a, keeps_inv (k a)) -> keeps_inv (bind m k).
Proof.
  intros Hm Hk w Hw. unfold bind.
  specialize (Hm w Hw).
  destruct (m w) as [[a | |] w1]; cbn in Hm |- *; auto.
  apply Hk, Hm.
Qed.

Lemma inv_local {A} (m : M A) :
  (forall w, session (snd (m w)) = session w
             /\ activeClientId (snd (m w)) = activeClientId w) ->
  keeps_inv m.
Proof.
  intros H w Hw. unfold engine_inv in *. destruct (H w) as [-> ->]. exact Hw.
Qed.

Lemma inv_saveSession : keeps_inv saveSession.
Proof.
  intros w _. unfold engine_inv.
  destruct (saveSession_idle w) as (_ & -> & ->). reflexivity.
Qed.

Lemma open_session_fresh (t : Z) (os editor : string) :
  open_session (mkSession t 0 0 os editor None [] ∅).
Proof.
  repeat split; cbn; try constructor; discriminate.
Qed.

Lemma inv_createSession (os editor : string) : keeps_inv (createSession os editor).
Proof.
  intros w _. rewrite createSession_eq. unfold engine_inv. cbn.
  apply open_session_fresh.
Qed.

Lemma inv_activate_create (id os editor : string) :
  keeps_inv (do _ <- modify (fun w => set_activeClientId w id); createSession os editor).
Proof.
  intros w _. unfold bind, modify. rewrite createSession_eq. unfold engine_inv. cbn.
  apply open_session_fresh.
Qed.

Lemma inv_activate_create_k {B} (id os editor : string) (k : unit -> M B) :
  (forall a, keeps_inv (k a)) ->
  keeps_inv (do _ <- modify (fun w => set_activeClientId w id);
             do x <- createSession os editor; k x).
Proof.
  intros Hk w _. unfold bind at 1, modify. cbn [fst snd].
  unfold bind. rewrite createSession_eq. apply Hk.
  unfold engine_inv. cbn. apply open_session_fresh.
Qed.

Lemma open_session_switch (t : Z) (s : Session) (f : File) :
  open_session s -> ClosedAt f = 0 -> DurationMs f = 0 ->
  open_session (set_CurrentFile (archive t s) (Some f)).
Proof.
  intros (He & Hd & Hf & Hopen & Hcur) Hc Hdf.
  unfold archive. destruct (CurrentFile s) as [g |] eqn:Eg; cbn.
  - split; [exact He |]. split; [exact Hd |]. split; [exact Hf |]. split.
    + apply Forall_app. split; [exact Hopen |].
      constructor; [| constructor]. cbn. apply (Hcur g eq_refl).
    + intros f' [= <-]. split; assumption.
  - split; [exact He |]. split; [exact Hd |]. split; [exact Hf |].
    split; [exact Hopen |]. intros f' [= <-]. split; assumption.
Qed.

Lemma inv_updateCurrentFile (path : string) : keeps_inv (updateCurrentFile path).
Proof.
  intros w Hw. destruct (session w) as [s |] eqn:Hs.
  - rewrite (updateCurrentFile_eq path w s Hs). cbv zeta.
    unfold engine_inv in *. rewrite Hs in Hw.
    destruct (w_reader w path); cbn; [| rewrite Hs; exact Hw].
    apply open_session_switch; [exact Hw | reflexivity | reflexivity].
  - unfold engine_inv in *. rewrite Hs in Hw.
    unfold updateCurrentFile, archiveCurrentFile, modify_session, reader_Read,
      GetTime, nil_deref, modify, get, bind, ret.
    cbn. destruct (w_reader w path); cbn; rewrite ?Hs; cbn; rewrite ?Hs; exact Hw.
Qed.

Create HintDb inv.

#[local] Hint Extern 1 (keeps_inv _) =>
  apply inv_local; intros; unfold_engine; cbn; repeat case_match; auto : inv.

Ltac inv_step :=
  first
    [ apply inv_saveSession
    | apply inv_createSession
    | apply inv_updateCurrentFile
    | apply inv_activate_create_k; intros
    | apply inv_activate_create
    | apply inv_bind; intros
    | match goal with
      | |- keeps_inv (if ?b then _ else _) => destruct b
      | |- keeps_inv (match ?x with _ => _ end) => destruct x
      end
    | solve [eauto with inv] ].

Lemma inv_run_op (o : Op) : keeps_inv (run_op o).
Proof.
  destruct o; cbn [run_op];
    unfold FocusGained, OpenFile, SendHeartbeat, EndSession, CheckHeartbeat,
      heartbeat_stale;
    repeat inv_step.
Qed.

(** X11: in every engine state reachable from [New], no session means no
    active client, and a session that exists is still open. *)
Theorem reachable_open_session (w : World) (Hr : reachable w) :
  (session w = None -> activeClientId w = "")
  /\ (forall s, session w = Some s -> open_session s).
Proof.
  assert (H : engine_inv w).
  { induction Hr as [clk wall rd st | w o w' _ IH Hrun].
    - reflexivity.
    - pose proof (inv_run_op o w IH) as H. rewrite Hrun in H. exact H. }
  unfold engine_inv in H. destruct (session w) as [s |].
  - split; [discriminate | intros s' [= <-]; exact H].
  - split; [intros _; exact H | discriminate].
Qed.

Lemma reachable_open_session_witness :
  (session w_scn = None -> activeClientId w_scn = "")
  /\ (forall s, session w_scn = Some s -> open_session s).
Proof. exact (reachable_open_session w_scn reachable_w_scn). Defined.

End EngineInvariant.

Module SavedSessionFacts.








End SavedSessionFacts.

Module DomainExtra.
Import Domain DomainFacts.

Lemma concat_perm {A} (xs ys : list (list A)) :
  Permutation xs ys -> Permutation (concat xs) (concat ys).
Proof.
  induction 1 as [| x l l' _ IH | x y l | l l' l'' _ IH1 _ IH2]; cbn.
  - constructor.
  - apply Permutation_app_head. exact IH.
  - rewrite !app_assoc. apply Permutation_app_tail, Permutation_app_comm.
  - etransitivity; [exact IH1 | exact IH2].
Qed.

Lemma groupByDay_snoc (l : list Session) (s : Session) :
  groupByDay (l ++ [s])
  = <[truncate_Day (StartedAt s) :=
        default [] (groupByDay l !! truncate_Day (StartedAt s)) ++ [s]]> (groupByDay l).
Proof. unfold groupByDay. rewrite foldl_app. reflexivity. Qed.

Lemma bucketed_insert_new (m : gmap Z (list Session)) d ss :
  m !! d = None -> Permutation (bucketed (<[d := ss]> m)) (ss ++ bucketed m).
Proof.
  intros Hn. unfold bucketed.
  rewrite (concat_perm _ (map snd ((d, ss) :: map_to_list m)))
    by (apply Permutation_map, map_to_list_insert, Hn).
  reflexivity.
Qed.

Lemma bucketed_delete (m : gmap Z (list Session)) d ss :
  m !! d = Some ss -> Permutation (bucketed m) (ss ++ bucketed (delete d m)).
Proof.
  intros Hs. unfold bucketed.
  rewrite <- (concat_perm (map snd ((d, ss) :: map_to_list (delete d m))))
    by (apply Permutation_map, map_to_list_delete, Hs).
  reflexivity.
Qed.

Lemma zsum_app (l1 l2 : list Z) : zsum (l1 ++ l2) = zsum l1 + zsum l2.
Proof. unfold zsum. induction l1; cbn; lia. Qed.

Lemma wrap64_zsum_wrap (xs : list Z) :
  wrap64 (zsum (map wrap64 xs)) = wrap64 (zsum xs).
Proof.
  unfold zsum. induction xs as [| x xs IH]; cbn [map foldr]; [reflexivity |].
  rewrite wrap64_add_l, <- wrap64_add_r, IH, wrap64_add_r. reflexivity.
Qed.

Lemma zsum_concat (xss : list (list Z)) : zsum (concat xss) = zsum (map zsum xss).
Proof.
  induction xss as [| xs xss IH]; cbn; [reflexivity |].
  rewrite zsum_app, IH. reflexivity.
Qed.

(** X14: [groupByDay] loses and duplicates no session: the buckets, taken
    together, are a permutation of its input. *)
Theorem groupByDay_partition (l : list Session) :
  Permutation (concat (map snd (map_to_list (groupByDay l)))) l.
Proof.
  fold (bucketed (groupByDay l)).
  induction l as [| s l IH] using rev_ind.
  - unfold bucketed, groupByDay. cbn. rewrite map_to_list_empty. reflexivity.
  - rewrite groupByDay_snoc.
    destruct (groupByDay l !! truncate_Day (StartedAt s)) as [old |] eqn:E;
      cbn [default]; unfold id.
    + rewrite <- insert_delete_eq, bucketed_insert_new by apply lookup_delete_eq.
      rewrite (bucketed_delete _ _ _ E) in IH.
      etransitivity; [| apply Permutation_app_tail, IH].
      rewrite <- !app_assoc. apply Permutation_app_head, Permutation_app_comm.
    + rewrite bucketed_insert_new by exact E. cbn.
      etransitivity; [apply Permutation_cons, IH; reflexivity |].
      apply Permutation_cons_append.
Qed.

Lemma TotalTimeMs_Aggregate (fmt : Z -> string) (l : list Session) :
  map TotalTimeMs (Aggregate fmt l)
  = map (fun e => wrap64 (zsum (map SDurationMs (snd e)))) (map_to_list (groupByDay l)).
Proof.
  unfold Aggregate. rewrite map_map. apply map_ext. intros [d ss].
  cbn. apply total_time_sum.
Qed.

(** X15: aggregation keeps the coding time: the [TotalTimeMs] of the days
    sum, in [int64], to the summed [DurationMs] of the input sessions. *)
Theorem Aggregate_total_time (fmt : Z -> string) (l : list Session) :
  wrap64 (zsum (map TotalTimeMs (Aggregate fmt l)))
  = wrap64 (zsum (map SDurationMs l)).
Proof.
  rewrite TotalTimeMs_Aggregate.
  rewrite <- (map_map (fun e => zsum (map SDurationMs (snd e))) wrap64).
  rewrite wrap64_zsum_wrap.
  rewrite <- (zsum_perm _ _ (Permutation_map SDurationMs (groupByDay_partition l))).
  rewrite concat_map, zsum_concat, !map_map. reflexivity.
Qed.

Lemma length_concat_nonempty {A} (xss : list (list A)) :
  Forall (fun xs => xs <> []) xss -> (length xss <= length (concat xss))%nat.
Proof.
  induction 1 as [| xs xss Hne _ IH]; cbn; [lia |].
  rewrite length_app. destruct xs; [congruence | cbn; lia].
Qed.

(** X16: [Aggregate] returns an empty slice exactly for an empty input, and
    never more days than sessions. *)
Theorem Aggregate_length (fmt : Z -> string) (l : list Session) :
  (Aggregate fmt l = [] <-> l = [])
  /\ (length (Aggregate fmt l) <= length l)%nat.
Proof.
  assert (Hlen : (length (Aggregate fmt l) <= length l)%nat).
  { unfold Aggregate. rewrite length_map.
    rewrite <- (Permutation_length (groupByDay_partition l)).
    rewrite <- (length_map snd (map_to_list (groupByDay l))).
    apply length_concat_nonempty, Forall_forall.
    intros ss Hin. apply list_elem_of_In, in_map_iff in Hin as [[d ss'] [<- Hin]].
    apply list_elem_of_In, elem_of_map_to_list, groupByDay_lookup in Hin.
    exact (proj2 Hin). }
  split; [| exact Hlen]. split.
  - intros Ha. destruct l as [| s l]; [reflexivity | exfalso].
    assert (Hin : In (aggregate_bucket fmt (truncate_Day (StartedAt s),
                       day_bucket (s :: l) (truncate_Day (StartedAt s))))
                     (Aggregate fmt (s :: l))).
    { apply in_Aggregate. eexists _, _. split; [| reflexivity].
      apply groupByDay_lookup. split; [reflexivity |].
      unfold day_bucket. rewrite filter_cons, decide_True by reflexivity.
      discriminate. }
    rewrite Ha in Hin. exact Hin.
  - intros ->. reflexivity.
Qed.

(** X17: sessions that all start on the same day [d] aggregate to the single
    day [d], carrying all of them. *)
Theorem Aggregate_single_day (fmt : Z -> string) (l : list Session) (d : Z)
    (Hne : l <> []) (Hday : Forall (fun s => truncate_Day (StartedAt s) = d) l) :
  Aggregate fmt l = [aggregate_bucket fmt (d, l)].
Proof.
  assert (Hb : day_bucket l d = l).
  { unfold day_bucket. clear Hne.
    induction Hday as [| s l' Hs _ IH]; [reflexivity |].
    rewrite filter_cons_True by exact Hs. rewrite IH. reflexivity. }
  assert (Hg : groupByDay l = {[d := l]}).
  { apply map_eq. intros k.
    destruct (decide (k = d)) as [-> | Hk].
    - rewrite lookup_singleton_eq. apply groupByDay_lookup. split; [symmetry; exact Hb | exact Hne].
    - rewrite lookup_singleton_ne by congruence.
      destruct (groupByDay l !! k) as [ss |] eqn:E; [exfalso | reflexivity].
      apply groupByDay_lookup in E as [-> Hne'].
      apply Hne'. unfold day_bucket. clear Hne Hb Hne'.
      induction Hday as [| s l' Hs _ IH]; [reflexivity |].
      rewrite filter_cons_False by congruence. exact IH. }
  unfold Aggregate. rewrite Hg, map_to_list_singleton. reflexivity.
Qed.

Lemma Aggregate_single_day_witness :
  Aggregate (fun _ => ""%string) [mkSession 0 5 []; mkSession 1000 7 []]
  = [aggregate_bucket (fun _ => ""%string) (0, [mkSession 0 5 []; mkSession 1000 7 []])].
Proof.
  apply (Aggregate_single_day _ _ 0); [discriminate | repeat constructor].
Defined.

End DomainExtra.

Module LockingExtra.
Import Locking.

Lemma lock_inv_init (ts : list (list instr)) :
  forallb well_bracketed ts = true -> lock_inv (mkConfig None ts).
Proof.
  intros Hts i p Hp. cbn. rewrite bool_decide_eq_false_2 by discriminate.
  rewrite forallb_forall in Hts. apply Hts, list_elem_of_In.
  exact (list_elem_of_lookup_2 ts i p Hp).
Qed.

Lemma held_other (o : option nat) (i k : nat) :
  k <> i -> o = Some i \/ o = None ->
  bool_decide (o = Some k) = false.
Proof. intros Hk Ho. apply bool_decide_eq_false_2. destruct Ho; congruence. Qed.

Lemma step_inv (c c' : config) (i : nat) (ins : instr) (o : option nat) :
  lock_inv c -> step c i = Some (ins, o, c') ->
  lock_inv c' /\ (ins = Access -> o = Some i).
Proof.
  intros Hinv. unfold step.
  destruct (threads c !! i) as [[| ins0 rest] |] eqn:Ei; try discriminate.
  pose proof (Hinv i _ Ei) as Hi.
  destruct ins0; [destruct (owner c) as [j |] eqn:Eo; [discriminate |] | | |];
    intros [= <- <- <-]; rewrite ?Eo in Hi |- *; cbn in Hi |- *.
  - (* Lock *)
    split; [| discriminate].
    intros k p Hk. apply list_lookup_insert_Some in Hk as [(<- & <- & _) | (Hne & Hk)]; cbn.
    + rewrite bool_decide_eq_true_2 by reflexivity. exact Hi.
    + pose proof (Hinv k p Hk) as Hp. rewrite Eo in Hp. cbn in Hp.
      rewrite bool_decide_eq_false_2 by congruence. exact Hp.
  - (* Unlock *)
    apply andb_prop in Hi as [Hh Hi].
    apply bool_decide_eq_true_1 in Hh.
    split; [| discriminate].
    intros k p Hk. apply list_lookup_insert_Some in Hk as [(<- & <- & _) | (Hne & Hk)]; cbn.
    + exact Hi.
    + pose proof (Hinv k p Hk) as Hp.
      rewrite (held_other (owner c) i k) in Hp by (congruence || left; exact Hh).
      exact Hp.
  - (* Access *)
    apply andb_prop in Hi as [Hh Hi].
    apply bool_decide_eq_true_1 in Hh.
    split; [| intros _; exact Hh].
    intros k p Hk. apply list_lookup_insert_Some in Hk as [(<- & <- & _) | (Hne & Hk)]; cbn.
    + exact Hi.
    + exact (Hinv k p Hk).
  - (* Local *)
    split; [| discriminate].
    intros k p Hk. apply list_lookup_insert_Some in Hk as [(<- & <- & _) | (Hne & Hk)]; cbn.
    + exact Hi.
    + exact (Hinv k p Hk).
Qed.

Lemma run_inv (sched : list nat) :
  forall c tr, lock_inv c -> run c sched = Some tr ->
  forall i o, In (i, Access, o) tr -> o = Some i.
Proof.
  induction sched as [| k sched IH]; intros c tr Hinv Hrun i o Hin; cbn in Hrun.
  - injection Hrun as <-. destruct Hin.
  - destruct (step c k) as [[[ins o'] c'] |] eqn:Es; [| discriminate].
    destruct (run c' sched) as [tr' |] eqn:Er; [| discriminate].
    injection Hrun as <-.
    destruct (step_inv c c' k ins o' Hinv Es) as [Hinv' Hacc].
    destruct Hin as [[= -> -> ->] | Hin].
    + apply Hacc. reflexivity.
    + exact (IH c' tr' Hinv' Er i o Hin).
Qed.

(** X18: the four handlers ([Lock] then [defer Unlock]) are well bracketed
    and [CheckHeartbeat] is not; goroutines that all run well-bracketed
    programs never access [app] while another goroutine owns the mutex,
    under every schedule. *)
Theorem well_bracketed_no_interleaving (ts : list (list instr))
    (sched : list nat) (tr : list (nat * instr * option nat))
    (Hwb : forallb well_bracketed ts = true)
    (Hrun : run (mkConfig None ts) sched = Some tr) :
  forallb well_bracketed
    [FocusGained_prog; OpenFile_prog; SendHeartbeat_prog; EndSession_prog] = true
  /\ well_bracketed CheckHeartbeat_prog = false
  /\ ~ interleaved tr.
Proof.
  split; [reflexivity |]. split; [reflexivity |].
  intros (i & j & Hin & Hij).
  apply Hij. symmetry.
  pose proof (run_inv sched _ tr (lock_inv_init ts Hwb) Hrun i (Some j) Hin).
  congruence.
Qed.

Lemma well_bracketed_no_interleaving_witness :
  match run (mkConfig None [FocusGained_prog; OpenFile_prog])
              [1%nat; 0%nat; 0%nat; 0%nat; 1%nat; 1%nat; 1%nat] with
  | Some tr =>
      forallb well_bracketed
        [FocusGained_prog; OpenFile_prog; SendHeartbeat_prog; EndSession_prog] = true
      /\ well_bracketed CheckHeartbeat_prog = false
      /\ ~ interleaved tr
  | None => False
  end.
Proof.
  cbn. apply (well_bracketed_no_interleaving [FocusGained_prog; OpenFile_prog]
                [1%nat; 0%nat; 0%nat; 0%nat; 1%nat; 1%nat; 1%nat]); reflexivity.
Defined.

End LockingExtra.

Module AppOptionsFacts.
Import AppOptions.

Section Facts.
Context {Clock Reader Storage Logger : Type}.

Lemma app_apply_options_app (a : app Clock Reader Storage Logger) (l1 l2 : list (Option Clock Reader Storage Logger)) :
  apply_options a (l1 ++ l2)
  = match apply_options a l1 with inl e => inl e | inr a' => apply_options a' l2 end.
Proof.
  revert a. induction l1 as [| o l1 IH]; intros a; cbn; [reflexivity |].
  destruct (run_option o a); [reflexivity | apply IH].
Qed.

Lemma run_option_nil (o : Option Clock Reader Storage Logger) (a : app Clock Reader Storage Logger) :
  option_is_nil o = true -> run_option o a = inl (nil_error o).
Proof.
  destruct o as [[] | [] | [] | []]; cbn; intros H; first [reflexivity | discriminate].
Qed.

Lemma run_option_ok (o : Option Clock Reader Storage Logger) (a : app Clock Reader Storage Logger) :
  option_is_nil o = false ->
  exists a', run_option o a = inr a'
    /\ (clock a <> None -> clock a' <> None)
    /\ (reader a <> None -> reader a' <> None)
    /\ (sets_storage o = false -> storage a' = storage a)
    /\ (forall st, o = WithStorage st -> storage a' = st).
Proof.
  destruct o as [[] | [] | [] | []]; cbn; intros H; try discriminate;
    eexists; (split; [reflexivity |]); cbn; repeat split; congruence.
Qed.

Lemma app_apply_options_ok (opts : list (Option Clock Reader Storage Logger)) :
  non_nil opts = true -> forall a,
  exists a', apply_options a opts = inr a'
    /\ (clock a <> None -> clock a' <> None)
    /\ (reader a <> None -> reader a' <> None)
    /\ (forallb (fun o => negb (sets_storage o)) opts = true -> storage a' = storage a).
Proof.
  induction opts as [| o opts IH]; intros Hnn a; cbn in Hnn |- *.
  - eexists. split; [reflexivity | tauto].
  - apply andb_prop in Hnn as [Ho Hnn]. apply negb_true_iff in Ho.
    destruct (run_option_ok o a Ho) as (a1 & -> & Hc1 & Hr1 & Hs1 & _).
    destruct (IH Hnn a1) as (a2 & -> & Hc2 & Hr2 & Hs2).
    exists a2. split; [reflexivity |]. split; [tauto |]. split; [tauto |].
    intros Hns. apply andb_prop in Hns as [Hno Hns]. apply negb_true_iff in Hno.
    rewrite Hs2, Hs1 by assumption. reflexivity.
Qed.

End Facts.

(** X19: [New] stops at the first option given [nil]: whatever the options
    before it (all non-[nil]) and after it, it returns the zero [app] and
    that option's error. *)
Theorem app_New_first_nil_error {Clock Reader Storage Logger : Type}
    (clk : Clock) (rd : Reader) (pre post : list (Option Clock Reader Storage Logger))
    (o : Option Clock Reader Storage Logger)
    (Hpre : non_nil pre = true) (Ho : option_is_nil o = true) :
  New clk rd (pre ++ o :: post) = (mkApp None None None None, Some (nil_error o)).
Proof.
  unfold New. rewrite app_apply_options_app.
  destruct (app_apply_options_ok pre Hpre (mkApp (Some clk) (Some rd) None None))
    as (a & -> & _).
  cbn. rewrite (run_option_nil o a Ho). reflexivity.
Qed.

Lemma app_New_first_nil_error_witness :
  New (Logger := unit) 1%nat true
      [WithStorage (Some 7%Z); WithLog None; WithClock None]
  = (mkApp None None None None, Some "log is nil"%string).
Proof.
  exact (app_New_first_nil_error 1%nat true [WithStorage (Some 7%Z)]
           [WithClock None] (WithLog None) eq_refl eq_refl).
Defined.

(** X20: with no [nil] option, [New] succeeds; the [app] keeps a clock and a
    metadata reader, has no storage unless an option set one, and takes
    the storage of the last [WithStorage]. *)
Theorem app_New_success {Clock Reader Storage Logger : Type}
    (clk : Clock) (rd : Reader) (opts : list (Option Clock Reader Storage Logger))
    (Hnn : non_nil opts = true) :
  exists a, New clk rd opts = (a, None)
    /\ clock a <> None /\ reader a <> None
    /\ (forallb (fun o => negb (sets_storage o)) opts = true -> storage a = None)
    /\ (forall pre st post, opts = pre ++ WithStorage st :: post ->
          forallb (fun o => negb (sets_storage o)) post = true -> storage a = st).
Proof.
  destruct (app_apply_options_ok opts Hnn (mkApp (Some clk) (Some rd) None None))
    as (a & Ha & Hc & Hr & Hs).
  exists a. unfold New. rewrite Ha. split; [reflexivity |].
  split; [apply Hc; cbn; discriminate |]. split; [apply Hr; cbn; discriminate |].
  split; [exact Hs |].
  intros pre st post -> Hpost.
  unfold non_nil in Hnn. rewrite forallb_app in Hnn. cbn in Hnn.
  apply andb_prop in Hnn as [Hpre Hnn]. apply andb_prop in Hnn as [Hst Hpost_nn].
  apply negb_true_iff in Hst.
  rewrite app_apply_options_app in Ha.
  destruct (app_apply_options_ok pre Hpre (mkApp (Some clk) (Some rd) None None))
    as (a1 & E1 & _).
  rewrite E1 in Ha. cbn [apply_options] in Ha.
  destruct (run_option_ok (WithStorage st) a1 Hst) as (a2 & E2 & _ & _ & _ & Hst2).
  rewrite E2 in Ha.
  destruct (app_apply_options_ok post Hpost_nn a2) as (a3 & E3 & _ & _ & Hs3).
  rewrite E3 in Ha. injection Ha as <-.
  rewrite (Hs3 Hpost). apply Hst2. reflexivity.
Qed.

Lemma app_New_success_witness :
  exists a, New 1%nat true ([WithStorage (Some 7%Z); WithLog (Some tt); WithStorage (Some 9%Z)]
            : list (Option nat bool Z unit)) = (a, None)
    /\ clock a <> None /\ reader a <> None
    /\ (forallb (fun o => negb (sets_storage o)) ([WithStorage (Some 7%Z); WithLog (Some tt); WithStorage (Some 9%Z)]
            : list (Option nat bool Z unit)) = true -> storage a = None)
    /\ (forall pre st post, ([WithStorage (Some 7%Z); WithLog (Some tt); WithStorage (Some 9%Z)]
            : list (Option nat bool Z unit)) = pre ++ WithStorage st :: post ->
          forallb (fun o => negb (sets_storage o)) post = true -> storage a = st).
Proof.
  exact (app_New_success 1%nat true ([WithStorage (Some 7%Z); WithLog (Some tt); WithStorage (Some 9%Z)]
            : list (Option nat bool Z unit)) eq_refl).
Defined.

End AppOptionsFacts.

Module ServerOptionsFacts.
Import ServerOptions.

Section Facts.
Context {Clock FileReader Storage Log : Type}.

Lemma server_apply_options_app (a : server Clock FileReader Storage Log)
    (l1 l2 : list (Option Clock FileReader Storage Log)) :
  apply_options a (l1 ++ l2)
  = match apply_options a l1 with inl e => inl e | inr a' => apply_options a' l2 end.
Proof.
  revert a. induction l1 as [| o l1 IH]; intros a; cbn; [reflexivity |].
  destruct (run_option o a); [reflexivity | apply IH].
Qed.

Lemma server_apply_options_ok (opts : list (Option Clock FileReader Storage Log)) :
  non_nil opts = true -> forall a,
  exists a', apply_options a opts = inr a'
    /\ serverName a' = serverName a
    /\ (clock a <> None -> clock a' <> None)
    /\ (fileReader a <> None -> fileReader a' <> None).
Proof.
  induction opts as [| o opts IH]; intros Hnn a; cbn in Hnn |- *.
  - eexists. split; [reflexivity | tauto].
  - apply andb_prop in Hnn as [Ho Hnn]. apply negb_true_iff in Ho.
    destruct o as [[c |] | [r |] | [st |] | [l |]]; try discriminate; cbn;
      match goal with
      | |- context [apply_options ?a1 opts] =>
          destruct (IH Hnn a1) as (a2 & -> & Hn & Hc & Hr)
      end;
      exists a2; cbn in *; repeat split; try congruence; intros; try apply Hc;
      try apply Hr; congruence.
Qed.

End Facts.

(** X21: the server's [New] stops at the first option given [nil]: it
    returns a zero [server], its name cleared, and that option's error. *)
Theorem server_New_first_nil_error {Clock FileReader Storage Log : Type}
    (name : string) (clk : Clock) (fr : FileReader)
    (pre post : list (Option Clock FileReader Storage Log))
    (o : Option Clock FileReader Storage Log)
    (Hpre : non_nil pre = true) (Ho : option_is_nil o = true) :
  New name clk fr (pre ++ o :: post) = (mkServer "" None None None None, Some (nil_error o)).
Proof.
  unfold New. rewrite server_apply_options_app.
  destruct (server_apply_options_ok pre Hpre (mkServer name (Some clk) (Some fr) None None))
    as (a & -> & _).
  cbn [apply_options].
  destruct o as [[] | [] | [] | []]; cbn in Ho |- *; first [reflexivity | discriminate].
Qed.

Lemma server_New_first_nil_error_witness :
  New "pulse"%string 1%nat true
    ([WithLog (Some tt); WithStorage None; WithClock (Some 2%nat)]
     : list (Option nat bool Z unit))
  = (mkServer "" None None None None, Some "storage is nil"%string).
Proof.
  exact (server_New_first_nil_error "pulse"%string 1%nat true [WithLog (Some tt)]
           [WithClock (Some 2%nat)] (WithStorage None) eq_refl eq_refl).
Defined.

(** X22: with no option given [nil], the server's [New] succeeds and keeps
    the given name, a clock and a file reader. *)
Theorem server_New_success {Clock FileReader Storage Log : Type}
    (name : string) (clk : Clock) (fr : FileReader)
    (opts : list (Option Clock FileReader Storage Log))
    (Hnn : non_nil opts = true) :
  exists a, New name clk fr opts = (a, None)
    /\ serverName a = name /\ clock a <> None /\ fileReader a <> None.
Proof.
  unfold New.
  destruct (server_apply_options_ok _ Hnn (mkServer name (Some clk) (Some fr) None None))
    as (a & -> & Hn & Hc & Hr).
  exists a. split; [reflexivity |]. split; [exact Hn |].
  split; [apply Hc | apply Hr]; cbn; discriminate.
Qed.

Lemma server_New_success_witness :
  exists a, New "pulse"%string 1%nat true
              ([WithLog (Some tt); WithStorage (Some 3%Z); WithClock (Some 2%nat)]
               : list (Option nat bool Z unit)) = (a, None)
    /\ serverName a = "pulse"%string /\ clock a <> None /\ fileReader a <> None.
Proof.
  exact (server_New_success "pulse"%string 1%nat true
           [WithLog (Some tt); WithStorage (Some 3%Z); WithClock (Some 2%nat)] eq_refl).
Defined.

End ServerOptionsFacts.
